(** * Reloader: the reload/stop page action of src/main.js

    A shallow embedding of the background script.  The script's module-level
    variables ([is_theme_dark], [page_action_title_idle], the two [Map]s)
    together with the part of the host the script talks to (the window's timer
    table, the millisecond clock behind [Date.now()], the promises that are
    still pending, the log of extension-API calls) form one [State]; every
    listener and promise callback of the script is a function on that state.

    Numbers are modelled as [Z]: tab ids, frame ids and timeout ids are
    integers in the host, and [Date.now()] and [details.timeStamp] are
    millisecond counts. *)

From stdpp Require Import gmap strings list fin_maps pretty.

Local Open Scope Z_scope.

(** ** Data supplied by the host *)

(** [tabs.Tab]: the script reads [tab.id] and [tab.status] only. *)
Record Tab := mkTab {
  tab_id : Z;
  tab_status : string
}.

(** [management.ExtensionInfo]: the script reads [id], [type], [enabled]. *)
Record ExtensionInfo := mkExt {
  ext_id : string;
  ext_type : string;
  ext_enabled : bool
}.

(** The [details] object of the [webNavigation] events. *)
Record Details := mkDetails {
  tabId : Z;
  frameId : Z;
  timeStamp : Z
}.

(** The two UI surfaces that carry the button. *)
Inductive Surface := pageAction | browserAction.

(** Calls into the extension API that change what the user sees or does. *)
Inductive Call :=
  | Show (tab : Z)
  | SetTitle (s : Surface) (tab : Z) (title : option string)
  | SetIcon (s : Surface) (tab : Z) (path : string)
  | ExecuteScript (code : string)
  | Reload.

(** An entry of the window's timer table.  The only [setTimeout] callback of
    the script is the closure of line 73, which captures [tab]; the entry
    stores that captured tab and the instant the timer is due. *)
Record Timer := mkTimer {
  timer_id : Z;
  timer_tab : Tab;
  timer_due : Z
}.

(** The [queryInfo] argument of [browser.tabs.query]: each property that
    is present constrains the tabs that are returned. *)
Record QueryInfo := mkQuery {
  query_active : option bool;
  query_status : option string
}.

(** The object [{}]: no property, so no constraint. *)
Definition query_all : QueryInfo := mkQuery None None.

(** A promise of the host API whose [then] callback has not run yet; a query
    for tabs is kept with the [queryInfo] it was made with. *)
Inductive Pending :=
  | P_management_getAll
  | P_getPlatformInfo
  | P_tabs_query_show (queryInfo : QueryInfo)
  | P_tabs_query_icons (queryInfo : QueryInfo)
  | P_tabs_get (details : Details).

(** The value a host promise resolves to. *)
Inductive Value :=
  | V_extensions (extensions : list ExtensionInfo)
  | V_platform (os : string)
  | V_tabs (tabs : list Tab)
  | V_tab (tab : Tab).

Global Instance Tab_eq_dec : EqDecision Tab.
Proof. solve_decision. Defined.
Global Instance Surface_eq_dec : EqDecision Surface.
Proof. solve_decision. Defined.
Global Instance Call_eq_dec : EqDecision Call.
Proof. solve_decision. Defined.

(** ** The state *)

Record State := mkState {
  is_theme_dark : bool;
  page_action_title_idle : option string;
  animation_timeouts : gmap Z Z;
  navigation_timestamp : gmap Z Z;
  timers : list Timer;
  next_timeout_id : Z;
  clock : Z;
  pending : list Pending;
  calls : list Call
}.

Definition set_is_theme_dark (b : bool) (st : State) : State :=
  mkState b (page_action_title_idle st) (animation_timeouts st)
    (navigation_timestamp st) (timers st) (next_timeout_id st) (clock st)
    (pending st) (calls st).

Definition set_page_action_title_idle (t : option string) (st : State) : State :=
  mkState (is_theme_dark st) t (animation_timeouts st)
    (navigation_timestamp st) (timers st) (next_timeout_id st) (clock st)
    (pending st) (calls st).

Definition set_animation_timeouts (m : gmap Z Z) (st : State) : State :=
  mkState (is_theme_dark st) (page_action_title_idle st) m
    (navigation_timestamp st) (timers st) (next_timeout_id st) (clock st)
    (pending st) (calls st).

Definition set_navigation_timestamp (m : gmap Z Z) (st : State) : State :=
  mkState (is_theme_dark st) (page_action_title_idle st) (animation_timeouts st)
    m (timers st) (next_timeout_id st) (clock st) (pending st) (calls st).

Definition set_timers (l : list Timer) (st : State) : State :=
  mkState (is_theme_dark st) (page_action_title_idle st) (animation_timeouts st)
    (navigation_timestamp st) l (next_timeout_id st) (clock st)
    (pending st) (calls st).

Definition set_next_timeout_id (n : Z) (st : State) : State :=
  mkState (is_theme_dark st) (page_action_title_idle st) (animation_timeouts st)
    (navigation_timestamp st) (timers st) n (clock st) (pending st) (calls st).

Definition set_clock (n : Z) (st : State) : State :=
  mkState (is_theme_dark st) (page_action_title_idle st) (animation_timeouts st)
    (navigation_timestamp st) (timers st) (next_timeout_id st) n
    (pending st) (calls st).

Definition set_pending (l : list Pending) (st : State) : State :=
  mkState (is_theme_dark st) (page_action_title_idle st) (animation_timeouts st)
    (navigation_timestamp st) (timers st) (next_timeout_id st) (clock st)
    l (calls st).

(** The host performs an API call: it is appended to the log. *)
Definition call (c : Call) (st : State) : State :=
  mkState (is_theme_dark st) (page_action_title_idle st) (animation_timeouts st)
    (navigation_timestamp st) (timers st) (next_timeout_id st) (clock st)
    (pending st) (calls st ++ [c]).

(** An asynchronous host API is called: its promise becomes pending. *)
Definition await (p : Pending) (st : State) : State :=
  set_pending (pending st ++ [p]) st.

(** ** The window's timers *)

(** [window.clearTimeout(id)]: the entry with that id, if any, is dropped. *)
Definition clearTimeout (id : Z) (st : State) : State :=
  set_timers (filter (λ tm, timer_id tm ≠ id) (timers st)) st.

(** [window.setTimeout(callback, delay)] for the callback that captured
    [tab]: returns a fresh id and registers the entry. *)
Definition setTimeout (tab : Tab) (delay : Z) (st : State) : Z * State :=
  let id := next_timeout_id st in
  (id, set_next_timeout_id (id + 1)
         (set_timers (timers st ++ [mkTimer id tab (clock st + delay)]) st)).

(** ** Theme detection (lines 6-28) *)

Definition dark_theme_ids : list string :=
  ["firefox-compact-dark@mozilla.org@personas.mozilla.org"].

(** [Array.prototype.includes] on strings. *)
Definition includes (l : list string) (s : string) : bool :=
  bool_decide (s ∈ l).

(** The outcome of running a callback: it returns, or it throws with the
    state as it was at the throw. *)
Inductive Completion :=
  | Normal (st : State)
  | Throw (error : string) (st : State).

Definition completion_state (c : Completion) : State :=
  match c with Normal st => st | Throw _ st => st end.

(** [update_all_page_action_icons] (lines 104-110) only issues the query,
    [browser.tabs.query({})]; the loop runs in the callback
    [update_all_page_action_icons_then] below. *)
Definition update_all_page_action_icons (st : State) : State :=
  await (P_tabs_query_icons query_all) st.

(** The callback of [browser.management.getAll()] (lines 14-20).  Reading
    [current_theme.id] when [filter(...)[0]] is [undefined] is a TypeError. *)
Definition detect_theme (extensions : list ExtensionInfo) (st : State)
  : Completion :=
  let current_theme :=
    head (filter (λ ext, ext_type ext = "theme" ∧ ext_enabled ext = true)
                 extensions) in
  match current_theme with
  | None => Throw "TypeError: current_theme is undefined" st
  | Some current_theme =>
      let st := set_is_theme_dark
                  (includes dark_theme_ids (ext_id current_theme)) st in
      Normal (update_all_page_action_icons st)
  end.

(** The [browser.management.onEnabled] listener (lines 23-28). *)
Definition on_enabled (info : ExtensionInfo) (st : State) : State :=
  if bool_decide (ext_type info = "theme") then
    let st := set_is_theme_dark (includes dark_theme_ids (ext_id info)) st in
    update_all_page_action_icons st
  else st.

(** ** Icon paths (lines 57-90) *)

(** [tab.status === "loading"]. *)
Definition is_loading (tab : Tab) : bool :=
  bool_decide (tab_status tab = "loading").

(** The value of [path] in [update_page_action_icon], as a function of what
    the function reads: the theme flag, the tab, [is_animated], and the
    reading of [Date.now()]. *)
Definition icon_path (dark : bool) (tab : Tab) (is_animated : bool)
    (date_now : Z) : string :=
  if is_animated then
    let reload_icon_path :=
      if dark then "data/reload_to_stop_dark.svg"
      else "data/reload_to_stop_light.svg" in
    let stop_icon_path :=
      if dark then "data/stop_to_reload_dark.svg"
      else "data/stop_to_reload_light.svg" in
    let timestamp := "?t=" +:+ pretty date_now in
    (if is_loading tab then stop_icon_path else reload_icon_path) +:+ timestamp
  else
    let reload_icon_path :=
      if dark then "data/reload_dark.svg" else "data/reload_light.svg" in
    let stop_icon_path :=
      if dark then "data/stop_dark.svg" else "data/stop_light.svg" in
    if is_loading tab then stop_icon_path else reload_icon_path.

(** ** The icon and its settle timer (lines 41-110) *)

Definition update_page_action_icon (tab : Tab) (is_animated : bool)
    (st : State) : State :=
  let st :=
    match animation_timeouts st !! tab_id tab with
    | Some id => clearTimeout id st
    | None => st
    end in
  let path := icon_path (is_theme_dark st) tab is_animated (clock st) in
  let st :=
    if is_animated then
      let '(timeout_id, st) := setTimeout tab 417 st in
      set_animation_timeouts
        (<[tab_id tab := timeout_id]> (animation_timeouts st)) st
    else st in
  call (SetIcon browserAction (tab_id tab) path)
    (call (SetIcon pageAction (tab_id tab) path) st).

(** The closure handed to [setTimeout] (lines 73-76). *)
Definition timeout_callback (tab : Tab) (st : State) : State :=
  let st := update_page_action_icon tab false st in
  set_animation_timeouts (delete (tab_id tab) (animation_timeouts st)) st.

(** The callback of the query in [update_all_page_action_icons]. *)
Definition update_all_page_action_icons_then (tabs : list Tab) (st : State)
  : State :=
  foldl (λ st tab, update_page_action_icon tab true st) st tabs.

(** ** Navigation debouncing: the decision of lines 189-203 *)

Definition should_animate (details : Details) (st : State) : bool :=
  match navigation_timestamp st !! tabId details with
  | Some last =>
      let diff := timeStamp details - last in
      if bool_decide (diff < 417) then false else true
  | None => true
  end.

(** [on_action_clicked] (lines 133-152). *)
Definition on_action_clicked (tab : Tab) (st : State) : State :=
  if is_loading tab then call (ExecuteScript "window.stop()") st
  else call Reload st.

(** [on_navigation] up to the [tabs.get] call (lines 183-187). *)
Definition on_navigation (details : Details) (st : State) : State :=
  if bool_decide (frameId details ≠ 0) then st
  else await (P_tabs_get details) st.

Section Localised.

(** [browser.i18n.getMessage(name, substitution)]: the message catalogue
    is not part of the script. *)
Variable getMessage : string → string → string.

Definition page_action_title_busy : string :=
  getMessage "page_action_busy_title" "Esc".

(** The callback of [browser.runtime.getPlatformInfo()] (lines 35-38). *)
Definition detect_os (os : string) (st : State) : State :=
  set_page_action_title_idle
    (Some (getMessage "page_action_idle_title"
             ((if bool_decide (os = "mac") then "⌘" else "Ctrl") +:+ "+R")))
    st.

(** [update_page_action] (lines 118-130). *)
Definition update_page_action (tab : Tab) (st : State) : State :=
  let st := call (Show (tab_id tab)) st in
  let title :=
    if is_loading tab then Some page_action_title_busy
    else page_action_title_idle st in
  call (SetTitle browserAction (tab_id tab) title)
    (call (SetTitle pageAction (tab_id tab) title) st).

(** The callback of the startup query (lines 159-164). *)
Definition show_all (tabs : list Tab) (st : State) : State :=
  foldl (λ st tab, update_page_action_icon tab true (update_page_action tab st))
    st tabs.

(** The [tabs.onCreated] listener (lines 167-170). *)
Definition on_created (tab : Tab) (st : State) : State :=
  update_page_action_icon tab true (update_page_action tab st).

(** The [tabs.onUpdated] listener (lines 172-174). *)
Definition on_updated (tab_id : Z) (tab : Tab) (st : State) : State :=
  update_page_action tab st.

(** The callback of [browser.tabs.get] in [on_navigation] (lines 188-210). *)
Definition on_navigation_then (details : Details) (tab : Tab) (st : State)
  : State :=
  let animate := should_animate details st in
  let st := update_page_action tab st in
  let st := update_page_action_icon tab animate st in
  set_navigation_timestamp
    (<[tabId details := timeStamp details]> (navigation_timestamp st)) st.

(** ** The event loop *)

Inductive Event :=
  | E_resolve (n : nat) (v : Value)
  | E_reject (n : nat)
  | E_management_onEnabled (info : ExtensionInfo)
  | E_tabs_onCreated (tab : Tab)
  | E_tabs_onUpdated (tab_id : Z) (tab : Tab)
  | E_webNavigation (details : Details)
  | E_action_onClicked (tab : Tab)
  | E_timeout (id : Z)
  | E_tick (ms : Z).

(** Running the [then] callback of a pending promise on its value. *)
Definition resume (p : Pending) (v : Value) (st : State) : option State :=
  match p, v with
  | P_management_getAll, V_extensions extensions =>
      Some (completion_state (detect_theme extensions st))
  | P_getPlatformInfo, V_platform os => Some (detect_os os st)
  | P_tabs_query_show _, V_tabs tabs => Some (show_all tabs st)
  | P_tabs_query_icons _, V_tabs tabs =>
      Some (update_all_page_action_icons_then tabs st)
  | P_tabs_get details, V_tab tab => Some (on_navigation_then details tab st)
  | _, _ => None
  end.

(** One turn of the event loop; [None] when the host cannot deliver the
    event in this state.  The three [webNavigation] events share the listener
    [on_navigation], the two [onClicked] events share [on_action_clicked].
    A timer that fires leaves the timer table and its callback runs.  A
    timer does not fire before it is due; how long after, the host decides:
    the clock may move past a pending timer. *)
Definition step (ev : Event) (st : State) : option State :=
  match ev with
  | E_resolve n v =>
      match pending st !! n with
      | Some p => resume p v (set_pending (delete n (pending st)) st)
      | None => None
      end
  | E_reject n =>
      match pending st !! n with
      | Some p => Some (set_pending (delete n (pending st)) st)
      | None => None
      end
  | E_management_onEnabled info => Some (on_enabled info st)
  | E_tabs_onCreated tab => Some (on_created tab st)
  | E_tabs_onUpdated tab_id tab => Some (on_updated tab_id tab st)
  | E_webNavigation details => Some (on_navigation details st)
  | E_action_onClicked tab => Some (on_action_clicked tab st)
  | E_timeout id =>
      match list_find (λ tm, timer_id tm = id) (timers st) with
      | Some (_, tm) =>
          if bool_decide (timer_due tm ≤ clock st)
          then Some (timeout_callback (timer_tab tm) (clearTimeout id st))
          else None
      | None => None
      end
  | E_tick ms =>
      if bool_decide (0 < ms)
      then Some (set_clock (clock st + ms) st)
      else None
  end.

Fixpoint run (evs : list Event) (st : State) : option State :=
  match evs with
  | [] => Some st
  | ev :: evs =>
      match step ev st with
      | Some st => run evs st
      | None => None
      end
  end.

(** The state once the script has been evaluated at instant [t0]: three
    promises are pending (lines 14, 35 and 159, the last one
    [browser.tabs.query({})]). *)
Definition init (t0 : Z) : State :=
  mkState false None ∅ ∅ [] 1 t0
    [P_management_getAll; P_getPlatformInfo; P_tabs_query_show query_all] [].

Definition reachable (st : State) : Prop :=
  ∃ t0 evs, run evs (init t0) = Some st.


End Localised.

Global Instance Timer_eq_dec : EqDecision Timer.
Proof. solve_decision. Defined.

(** The timers of the table that settle the icon of tab [t]. *)
Definition live_timers (t : Z) (st : State) : list Timer :=
  filter (λ tm, tab_id (timer_tab tm) = t) (timers st).

(** The ids in the timer table. *)
Definition timer_ids (st : State) : list Z := timer_id <$> timers st.

(** What [update_page_action_icon] leaves of the table before it schedules:
    the timer recorded for the tab is cleared. *)
Definition cancelled_timers (tab : Tab) (st : State) : list Timer :=
  match animation_timeouts st !! tab_id tab with
  | Some id => filter (λ tm, timer_id tm ≠ id) (timers st)
  | None => timers st
  end.

(** The two [setIcon] calls of one icon update. *)
Definition icon_calls (tab : Tab) (path : string) : list Call :=
  [SetIcon pageAction (tab_id tab) path; SetIcon browserAction (tab_id tab) path].

(** The calls of [update_page_action]. *)
Definition title_calls (tab : Tab) (title : option string) : list Call :=
  [Show (tab_id tab); SetTitle pageAction (tab_id tab) title;
   SetTitle browserAction (tab_id tab) title].

(** What holds of the timer table and the timer map between any two
    operations of the script. *)
Record Inv (st : State) : Prop := mkInv {
  inv_entry : ∀ tm, tm ∈ timers st →
    animation_timeouts st !! tab_id (timer_tab tm) = Some (timer_id tm);
  inv_fresh : ∀ tm, tm ∈ timers st → timer_id tm < next_timeout_id st;
  inv_nodup : NoDup (timer_id <$> timers st);
  inv_recorded : ∀ t k,
    animation_timeouts st !! t = Some k → k < next_timeout_id st;
  inv_owner : ∀ t tm, tm ∈ timers st →
    animation_timeouts st !! t = Some (timer_id tm) →
    tab_id (timer_tab tm) = t;
  inv_due : ∀ tm, tm ∈ timers st → timer_due tm ≤ clock st + 417
}.

(** A run of icon updates, each for some tab, animated or not. *)
Definition icon_updates (ops : list (Tab * bool)) (st : State) : State :=
  foldl (λ st op, update_page_action_icon op.1 op.2 st) st ops.

(** Every tab recorded in the timer map of the first state is recorded in
    that of the second. *)
Definition keeps_entries (st st' : State) : Prop :=
  ∀ t, is_Some (animation_timeouts st !! t) →
       is_Some (animation_timeouts st' !! t).

(** From the first state to the second the call log has grown, and every
    timer that was pending is still pending unless an icon of its tab was set
    on the way. *)
Definition kept_or_superseded (st st' : State) : Prop :=
  ∃ new, calls st' = calls st ++ new ∧
    ∀ tm, tm ∈ timers st →
      tm ∈ timers st' ∨
      ∃ path, SetIcon pageAction (tab_id (timer_tab tm)) path ∈ new.

(** From the first state to the second no timer id that had already been
    handed out has come back into the table. *)
Definition no_id_reused (st st' : State) : Prop :=
  next_timeout_id st ≤ next_timeout_id st' ∧
  ∀ tm, tm ∈ timers st' → tm ∈ timers st ∨ next_timeout_id st ≤ timer_id tm.

(** The [title] of the object built in [update_page_action] (lines
    123-125), for a busy title [busy]. *)
Definition action_title (busy : string) (st : State) (tab : Tab)
  : option string :=
  if is_loading tab then Some busy else page_action_title_idle st.

(** The calls of one animated icon update of [tab] in state [st]. *)
Definition animated_icon_calls (st : State) (tab : Tab) : list Call :=
  icon_calls tab (icon_path (is_theme_dark st) tab true (clock st)).

(** Some settle timer of tab [t] is pending. *)
Definition has_timer (t : Z) (st : State) : Prop :=
  ∃ tm, tm ∈ timers st ∧ tab_id (timer_tab tm) = t.

(** The still icon and the clip of a load state in a theme variant, by
    their file names (lines 80-89 and 58-70); the clip carries the marker of
    the instant it is requested at. *)
Definition still_icon (dark loading : bool) : string :=
  if loading
  then (if dark then "data/stop_dark.svg" else "data/stop_light.svg")
  else (if dark then "data/reload_dark.svg" else "data/reload_light.svg").

Definition clip_icon (dark loading : bool) (now : Z) : string :=
  (if loading
   then (if dark then "data/stop_to_reload_dark.svg"
         else "data/stop_to_reload_light.svg")
   else (if dark then "data/reload_to_stop_dark.svg"
         else "data/reload_to_stop_light.svg"))
  +:+ "?t=" +:+ pretty now.

(** The asset named after the phase and the load state, and the theme
    variant: the two axes of the file names in [icon_path]. *)
Definition asset_name (is_animated loading : bool) : string :=
  if is_animated
  then (if loading then "stop_to_reload" else "reload_to_stop")
  else (if loading then "stop" else "reload").

Definition theme_variant (dark : bool) : string :=
  if dark then "dark" else "light".

(** The reading of the transition phase in the specification: the
    reload-to-stop clip for a loading tab, the stop-to-reload clip for an
    idle one.  Stated from the specification, to be compared with
    [icon_path]. *)
Definition spec_transition_asset (dark : bool) (tab : Tab) : string :=
  if is_loading tab
  then (if dark then "data/reload_to_stop_dark.svg"
        else "data/reload_to_stop_light.svg")
  else (if dark then "data/stop_to_reload_dark.svg"
        else "data/stop_to_reload_light.svg").

(** A message catalogue to run the script with: a message is rendered as
    its name followed by its substitution. *)
Definition sample_messages (name substitution : string) : string :=
  name +:+ ":" +:+ substitution.

(** A tab that is loading, a tab that is not, and a state the script
    reaches: tab 3 is created at instant 0, which starts an animation, and
    300 ms pass. *)
Definition tab3 : Tab := mkTab 3 "loading".
Definition tab1 : Tab := mkTab 1 "complete".

Definition sample_events : list Event := [E_tabs_onCreated tab3; E_tick 300].

Definition sample_state : State :=
  Eval vm_compute in
    default (init 0) (run sample_messages sample_events (init 0)).


Definition dark_theme : ExtensionInfo :=
  mkExt "firefox-compact-dark@mozilla.org@personas.mozilla.org" "theme" true.

(** ** The host's tabs

    The browser with the tabs it has open.  The script never sees the table
    of tabs; it is given tab objects by the tab events and by the promises of
    [tabs.query] and [tabs.get], and the host fills these from the table. *)

(** A tab the host has open: the tab object it gives to the script, and
    whether the tab is the active one of its window. *)
Record OpenTab := mkOpenTab {
  open_tab : Tab;
  open_active : bool
}.

(** Whether an open tab satisfies a [queryInfo]. *)
Definition matches (q : QueryInfo) (ot : OpenTab) : bool :=
  match query_active q with
  | Some active => bool_decide (open_active ot = active)
  | None => true
  end &&
  match query_status q with
  | Some status => bool_decide (tab_status (open_tab ot) = status)
  | None => true
  end.

(** What [browser.tabs.query(queryInfo)] resolves to: the open tabs that
    satisfy [queryInfo], in the order of the table. *)
Definition tabs_query (q : QueryInfo) (tabs : list OpenTab) : list Tab :=
  open_tab <$> filter (λ ot, matches q ot = true) tabs.

(** What [browser.tabs.get(tabId)] finds. *)
Definition tabs_get (id : Z) (tabs : list OpenTab) : option Tab :=
  open_tab <$> head (filter (λ ot, tab_id (open_tab ot) = id) tabs).

Record Browser := mkBrowser {
  open_tabs : list OpenTab;
  script : State
}.

(** What happens in the browser: a tab is opened, changes or is closed; the
    promise of a [tabs.query] or a [tabs.get] settles; or an event that has
    nothing to do with the table of tabs is delivered to the script. *)
Inductive BrowserEvent :=
  | B_tab_created (ot : OpenTab)
  | B_tab_updated (ot : OpenTab)
  | B_tab_removed (id : Z)
  | B_query_resolved (n : nat)
  | B_get_settled (n : nat)
  | B_script (ev : Event).

(** The events the host delivers without consulting the table of tabs. *)
Definition tab_free (ev : Event) : bool :=
  match ev with
  | E_resolve _ (V_extensions _) | E_resolve _ (V_platform _)
  | E_management_onEnabled _ | E_webNavigation _ | E_action_onClicked _
  | E_timeout _ | E_tick _ => true
  | _ => false
  end.

(** The two clip calls of an animated icon update of [tab], in the theme
    variant [dark], at instant [now]. *)
Definition clip_calls (dark : bool) (now : Z) (tab : Tab) : list Call :=
  [SetIcon pageAction (tab_id tab) (clip_icon dark (is_loading tab) now);
   SetIcon browserAction (tab_id tab) (clip_icon dark (is_loading tab) now)].

Section Host.

Variable getMessage : string → string → string.

(** One turn of the browser.  A tab that is opened or changes is announced
    to the script; a tab that is closed is not (the script has no listener
    for it).  A query resolves to the tabs that are open and satisfy its
    [queryInfo] when it resolves; [tabs.get] resolves to the open tab of that
    id and rejects when there is none. *)
Definition browse (bev : BrowserEvent) (b : Browser) : option Browser :=
  match bev with
  | B_tab_created ot =>
      if bool_decide (tab_id (open_tab ot) ∈
                      (tab_id ∘ open_tab) <$> open_tabs b)
      then None
      else mkBrowser (open_tabs b ++ [ot]) <$>
             step getMessage (E_tabs_onCreated (open_tab ot)) (script b)
  | B_tab_updated ot =>
      if bool_decide (tab_id (open_tab ot) ∈
                      (tab_id ∘ open_tab) <$> open_tabs b)
      then mkBrowser
             ((λ ot', if bool_decide (tab_id (open_tab ot') =
                                      tab_id (open_tab ot))
                      then ot else ot') <$> open_tabs b) <$>
             step getMessage
               (E_tabs_onUpdated (tab_id (open_tab ot)) (open_tab ot))
               (script b)
      else None
  | B_tab_removed id =>
      Some (mkBrowser
              (filter (λ ot, tab_id (open_tab ot) ≠ id) (open_tabs b))
              (script b))
  | B_query_resolved n =>
      match pending (script b) !! n with
      | Some (P_tabs_query_show q) | Some (P_tabs_query_icons q) =>
          mkBrowser (open_tabs b) <$>
            step getMessage
              (E_resolve n (V_tabs (tabs_query q (open_tabs b)))) (script b)
      | _ => None
      end
  | B_get_settled n =>
      match pending (script b) !! n with
      | Some (P_tabs_get details) =>
          mkBrowser (open_tabs b) <$>
            step getMessage
              (match tabs_get (tabId details) (open_tabs b) with
               | Some tab => E_resolve n (V_tab tab)
               | None => E_reject n
               end) (script b)
      | _ => None
      end
  | B_script ev =>
      if tab_free ev
      then mkBrowser (open_tabs b) <$> step getMessage ev (script b)
      else None
  end.

Fixpoint browses (bevs : list BrowserEvent) (b : Browser) : option Browser :=
  match bevs with
  | [] => Some b
  | bev :: bevs =>
      match browse bev b with
      | Some b => browses bevs b
      | None => None
      end
  end.

End Host.

(** ** What the call log shows *)

Global Instance Details_eq_dec : EqDecision Details.
Proof. solve_decision. Defined.
Global Instance QueryInfo_eq_dec : EqDecision QueryInfo.
Proof. solve_decision. Defined.
Global Instance Pending_eq_dec : EqDecision Pending.
Proof. solve_decision. Defined.

(** The icon a call sets on surface [s] of tab [t], if it sets one. *)
Definition icon_set_by (s : Surface) (t : Z) (c : Call) : option string :=
  match c with
  | SetIcon s' t' path => if decide (s' = s ∧ t' = t) then Some path else None
  | _ => None
  end.

(** The title a call sets on surface [s] of tab [t], if it sets one. *)
Definition title_set_by (s : Surface) (t : Z) (c : Call)
  : option (option string) :=
  match c with
  | SetTitle s' t' title =>
      if decide (s' = s ∧ t' = t) then Some title else None
  | _ => None
  end.

(** The value set by the latest call of a log, oldest call first. *)
Fixpoint last_set {A} (f : Call → option A) (l : list Call) : option A :=
  match l with
  | [] => None
  | c :: l =>
      match last_set f l with
      | Some a => Some a
      | None => f c
      end
  end.

Definition shown_icon (s : Surface) (t : Z) (l : list Call) : option string :=
  last_set (icon_set_by s t) l.

Definition shown_title (s : Surface) (t : Z) (l : list Call)
  : option (option string) :=
  last_set (title_set_by s t) l.

(** Both surfaces show the same icon and the same title for every tab. *)
Definition mirrored (l : list Call) : Prop :=
  ∀ t, shown_icon pageAction t l = shown_icon browserAction t l ∧
       shown_title pageAction t l = shown_title browserAction t l.

(** The second state's log is the first one's followed by calls with
    property [Q]. *)
Definition grows_by (Q : list Call → Prop) (st st' : State) : Prop :=
  ∃ new, calls st' = calls st ++ new ∧ Q new.

(** The icon files the script names (lines 58-63 and 80-85). *)
Definition still_assets : list string :=
  ["data/reload_dark.svg"; "data/reload_light.svg";
   "data/stop_dark.svg"; "data/stop_light.svg"].

Definition clip_assets : list string :=
  ["data/reload_to_stop_dark.svg"; "data/reload_to_stop_light.svg";
   "data/stop_to_reload_dark.svg"; "data/stop_to_reload_light.svg"].

(** A path that names a still icon, or a clip followed by a [?t=] marker. *)
Definition asset_path (path : string) : Prop :=
  path ∈ still_assets ∨
  ∃ base (now : Z),
    base ∈ clip_assets ∧ path = base +:+ "?t=" +:+ pretty now.

Definition sets_asset (c : Call) : Prop :=
  match c with
  | SetIcon _ _ path => asset_path path
  | _ => True
  end.

(** The flag, the idle title, the timestamps, the clock and the pending
    promises of two states are the same. *)
Definition same_frame (st st' : State) : Prop :=
  is_theme_dark st' = is_theme_dark st ∧
  page_action_title_idle st' = page_action_title_idle st ∧
  navigation_timestamp st' = navigation_timestamp st ∧
  clock st' = clock st ∧
  pending st' = pending st.

(** Every pending [tabs.get] was asked for by a top-level navigation. *)
Definition pending_top_level (st : State) : Prop :=
  ∀ details, P_tabs_get details ∈ pending st → frameId details = 0.

(** The number of [getPlatformInfo] promises that are pending. *)
Definition platform_pending (st : State) : nat :=
  length (filter (λ p, p = P_getPlatformInfo) (pending st)).

(** The flag, the idle title, the timestamps, the clock and the pending
    promises of a state are the given ones. *)
Definition frame_is (dark : bool) (idle : option string) (nav : gmap Z Z)
    (clk : Z) (pend : list Pending) (st : State) : Prop :=
  is_theme_dark st = dark ∧
  page_action_title_idle st = idle ∧
  navigation_timestamp st = nav ∧
  clock st = clk ∧
  pending st = pend.

(** The idle title for a platform (lines 36-37). *)
Definition idle_title_for (getMessage : string → string → string)
    (os : string) : string :=
  getMessage "page_action_idle_title"
    ((if bool_decide (os = "mac") then "⌘" else "Ctrl") +:+ "+R").

(** What one turn of the event loop does to those five components, by the
    event delivered. *)
Inductive frame_change (getMessage : string → string → string)
  : Event → State → State → Prop :=
  | fc_same ev st st' :
      frame_is (is_theme_dark st) (page_action_title_idle st)
        (navigation_timestamp st) (clock st) (pending st) st' →
      frame_change getMessage ev st st'
  | fc_tick ms st st' :
      0 < ms →
      frame_is (is_theme_dark st) (page_action_title_idle st)
        (navigation_timestamp st) (clock st + ms) (pending st) st' →
      frame_change getMessage (E_tick ms) st st'
  | fc_navigation details st st' :
      frameId details = 0 →
      frame_is (is_theme_dark st) (page_action_title_idle st)
        (navigation_timestamp st) (clock st)
        (pending st ++ [P_tabs_get details]) st' →
      frame_change getMessage (E_webNavigation details) st st'
  | fc_theme info st st' :
      ext_type info = "theme" →
      frame_is (includes dark_theme_ids (ext_id info))
        (page_action_title_idle st) (navigation_timestamp st) (clock st)
        (pending st ++ [P_tabs_query_icons query_all]) st' →
      frame_change getMessage (E_management_onEnabled info) st st'
  | fc_reject n p st st' :
      pending st !! n = Some p →
      frame_is (is_theme_dark st) (page_action_title_idle st)
        (navigation_timestamp st) (clock st) (delete n (pending st)) st' →
      frame_change getMessage (E_reject n) st st'
  | fc_detect_throw n extensions st st' :
      pending st !! n = Some P_management_getAll →
      frame_is (is_theme_dark st) (page_action_title_idle st)
        (navigation_timestamp st) (clock st) (delete n (pending st)) st' →
      frame_change getMessage (E_resolve n (V_extensions extensions)) st st'
  | fc_detect n extensions theme st st' :
      pending st !! n = Some P_management_getAll →
      theme ∈ extensions → ext_type theme = "theme" →
      frame_is (includes dark_theme_ids (ext_id theme))
        (page_action_title_idle st) (navigation_timestamp st) (clock st)
        (delete n (pending st) ++ [P_tabs_query_icons query_all]) st' →
      frame_change getMessage (E_resolve n (V_extensions extensions)) st st'
  | fc_platform n os st st' :
      pending st !! n = Some P_getPlatformInfo →
      frame_is (is_theme_dark st) (Some (idle_title_for getMessage os))
        (navigation_timestamp st) (clock st) (delete n (pending st)) st' →
      frame_change getMessage (E_resolve n (V_platform os)) st st'
  | fc_tabs n p tabs st st' :
      pending st !! n = Some p →
      (∃ queryInfo, p = P_tabs_query_show queryInfo ∨
                    p = P_tabs_query_icons queryInfo) →
      frame_is (is_theme_dark st) (page_action_title_idle st)
        (navigation_timestamp st) (clock st) (delete n (pending st)) st' →
      frame_change getMessage (E_resolve n (V_tabs tabs)) st st'
  | fc_tab n details tab st st' :
      pending st !! n = Some (P_tabs_get details) →
      frame_is (is_theme_dark st) (page_action_title_idle st)
        (<[tabId details := timeStamp details]> (navigation_timestamp st))
        (clock st) (delete n (pending st)) st' →
      frame_change getMessage (E_resolve n (V_tab tab)) st st'.

(** The idle title is set at most once, by the platform callback: at most
    one platform promise is pending, none once the title is set, and a
    title that is set is the title for some platform. *)
Definition idle_title_inv (getMessage : string → string → string)
    (st : State) : Prop :=
  (platform_pending st ≤ 1)%nat ∧
  ∀ s, page_action_title_idle st = Some s →
    platform_pending st = 0%nat ∧ ∃ os, s = idle_title_for getMessage os.

(** A settle timer of tab [t] is pending that is due 417 ms after
    instant [c]. *)
Definition fresh_timer (t c : Z) (st : State) : Prop :=
  ∃ tm, tm ∈ timers st ∧ tab_id (timer_tab tm) = t ∧ timer_due tm = c + 417.

(** ** Clicks, commands and menus (lines 133-155 and 222-287)

    The part of the script that acts on the page: it keeps no state of its
    own, so its world is the log of the requests it makes and the promises
    of those requests that have a callback. *)

Module Actions.

Inductive Request :=
  | tabs_executeScript (code runAt : string)
  | tabs_reload (bypassCache : bool)
  | browsingData_remove (cache : bool)
  | console_error (message : string).

(** [executing]: the promise of [tabs.executeScript], with its [catch];
    [removing]: the promise of [browsingData.remove], with its [then]. *)
Inductive Promise := executing | removing.

Record World := mkWorld {
  log : list Request;
  waiting : list Promise
}.

Definition request (r : Request) (w : World) : World :=
  mkWorld (log w ++ [r]) (waiting w).

Definition wait (p : Promise) (w : World) : World :=
  mkWorld (log w) (waiting w ++ [p]).

Definition settle (n : nat) (w : World) : World :=
  mkWorld (log w) (delete n (waiting w)).

(** An item handed to [browser.menus.create] (lines 248-272); the title is
    kept as the name of its message. *)
Record MenuItem := mkMenuItem {
  item_id : string;
  item_title : string;
  item_command : option string;
  item_contexts : list string
}.

Definition menu_items : list MenuItem :=
  [mkMenuItem "normal_reload" "page_action_context_normal_reload_title"
     (Some "_execute_page_action") ["page_action"; "browser_action"];
   mkMenuItem "hard_reload" "page_action_context_hard_reload_title"
     None ["page_action"; "browser_action"];
   mkMenuItem "empty_cache_and_hard_reload"
     "page_action_context_empty_cache_and_hard_reload_title"
     None ["page_action"; "browser_action"]].

Section Named.

(** [_("extension_name")], from the message catalogue. *)
Variable extension_name : string.

(** [on_action_clicked] (lines 133-152), with the promise of the injected
    script. *)
Definition on_action_clicked (tab : Tab) (w : World) : World :=
  if is_loading tab
  then wait executing (request (tabs_executeScript "window.stop()"
                                  "document_start") w)
  else request (tabs_reload false) w.

(** The [catch] callback of line 146. *)
Definition on_stop_failed (w : World) : World :=
  request (console_error (extension_name +:+ ": https://git.io/vbCz7")) w.

(** [empty_cache_and_hard_reload] up to the [then] (lines 227-229). *)
Definition empty_cache_and_hard_reload (w : World) : World :=
  wait removing (request (browsingData_remove true) w).

(** The [then] callback of lines 230-235. *)
Definition on_cache_cleared (w : World) : World :=
  request (tabs_reload true) w.

(** The [commands.onCommand] listener (lines 239-245). *)
Definition on_command (command : string) (w : World) : World :=
  if bool_decide (command = "empty_cache_and_hard_reload")
  then empty_cache_and_hard_reload w
  else w.

(** The [menus.onClicked] listener (lines 274-287). *)
Definition on_menu_clicked (menuItemId : string) (w : World) : World :=
  if bool_decide (menuItemId = "hard_reload")
  then request (tabs_reload true) w
  else if bool_decide (menuItemId = "empty_cache_and_hard_reload")
  then empty_cache_and_hard_reload w
  else w.

Inductive Input :=
  | I_clicked (tab : Tab)
  | I_command (command : string)
  | I_menu (menuItemId : string)
  | I_resolved (n : nat)
  | I_rejected (n : nat).

(** One turn of the event loop for this part of the script.  A script that
    was injected has no [then]; a removal that fails has no [catch]. *)
Definition react (i : Input) (w : World) : option World :=
  match i with
  | I_clicked tab => Some (on_action_clicked tab w)
  | I_command command => Some (on_command command w)
  | I_menu menuItemId => Some (on_menu_clicked menuItemId w)
  | I_resolved n =>
      match waiting w !! n with
      | Some executing => Some (settle n w)
      | Some removing => Some (on_cache_cleared (settle n w))
      | None => None
      end
  | I_rejected n =>
      match waiting w !! n with
      | Some executing => Some (on_stop_failed (settle n w))
      | Some removing => Some (settle n w)
      | None => None
      end
  end.

Fixpoint reacts (inputs : list Input) (w : World) : option World :=
  match inputs with
  | [] => Some w
  | i :: inputs =>
      match react i w with
      | Some w => reacts inputs w
      | None => None
      end
  end.

End Named.

Definition start : World := mkWorld [] [].

Global Instance Request_eq_dec : EqDecision Request.
Proof. solve_decision. Defined.
Global Instance Promise_eq_dec : EqDecision Promise.
Proof. solve_decision. Defined.
Global Instance Input_eq_dec : EqDecision Input.
Proof. solve_decision. Defined.

(** How many reloads bypassing the cache, removals of the cache, and
    removals still awaited a world has. *)
Definition hard_reloads (w : World) : nat :=
  length (filter (λ r, r = tabs_reload true) (log w)).

Definition removals (w : World) : nat :=
  length (filter (λ r, r = browsingData_remove true) (log w)).

Definition removals_awaited (w : World) : nat :=
  length (filter (λ p, p = removing) (waiting w)).

(** How many of the inputs are a click on the hard-reload menu item. *)
Definition hard_reload_clicks (inputs : list Input) : nat :=
  length (filter (λ i, i = I_menu "hard_reload") inputs).

(** How many normal reloads, injected stops and logged errors a world has,
    and how many injected scripts it still awaits. *)
Definition normal_reloads (w : World) : nat :=
  length (filter (λ r, r = tabs_reload false) (log w)).

Definition stops (w : World) : nat :=
  length (filter (λ r, r = tabs_executeScript "window.stop()" "document_start")
            (log w)).

Definition is_error (r : Request) : bool :=
  match r with console_error _ => true | _ => false end.

Definition errors (w : World) : nat :=
  length (filter (λ r, is_error r = true) (log w)).

Definition stops_awaited (w : World) : nat :=
  length (filter (λ p, p = executing) (waiting w)).

(** How many of the inputs are a click on a tab that is loading, and on a
    tab that is not. *)
Definition clicks_loading (i : Input) : bool :=
  match i with I_clicked tab => is_loading tab | _ => false end.

Definition clicks_idle (i : Input) : bool :=
  match i with I_clicked tab => negb (is_loading tab) | _ => false end.

Definition loading_clicks (inputs : list Input) : nat :=
  length (filter (λ i, clicks_loading i = true) inputs).

Definition idle_clicks (inputs : list Input) : nat :=
  length (filter (λ i, clicks_idle i = true) inputs).

End Actions.

(** A browser with two tabs open, tab 1 active, at the start of the
    script, and the events of a theme change: the dark theme is enabled and
    the query of the refresh (the fourth pending promise) resolves. *)
Definition sample_browser : Browser :=
  mkBrowser [mkOpenTab tab1 true; mkOpenTab tab3 false] (init 0).

Definition sample_theme_change : list BrowserEvent :=
  [B_script (E_management_onEnabled dark_theme); B_query_resolved 3].

(** More states and worlds to run the script in.  A top-level navigation
    of tab 7 at 100 ms, before and after its [tabs.get] resolves; the state
    once the platform is known; an animation of tab 3 that has run to its
    end; and a world after a cache removal, two clicks and a menu choice. *)
Definition tab7 : Tab := mkTab 7 "loading".

Definition navigating_state : State :=
  Eval vm_compute in
    default (init 0)
      (run sample_messages [E_webNavigation (mkDetails 7 0 100)] (init 0)).

Definition navigated_state : State :=
  Eval vm_compute in
    default (init 0)
      (step sample_messages (E_resolve 3 (V_tab tab7)) navigating_state).

Definition titled_state : State :=
  Eval vm_compute in
    default (init 0)
      (run sample_messages [E_resolve 1 (V_platform "mac")] (init 0)).

Definition settled_state : State :=
  Eval vm_compute in
    default (init 0)
      (run sample_messages [E_tick 417; E_timeout 1]
         (update_page_action_icon tab3 true (init 0))).

Definition sample_inputs : list Actions.Input :=
  [Actions.I_command "empty_cache_and_hard_reload"; Actions.I_resolved 0;
   Actions.I_clicked tab3; Actions.I_rejected 0; Actions.I_clicked tab1;
   Actions.I_menu "hard_reload"].

Definition sample_world : Actions.World :=
  Eval vm_compute in
    default Actions.start
      (Actions.reacts "Reloader" sample_inputs Actions.start).

(** * Properties *)

(** ** The icon update, field by field *)

Section IconUpdate.

Implicit Types (st : State) (tab : Tab) (tm : Timer).

Lemma upai_timers tab b st :
  timers (update_page_action_icon tab b st) =
  cancelled_timers tab st ++
  (if b then [mkTimer (next_timeout_id st) tab (clock st + 417)] else []).
Proof.
  unfold update_page_action_icon, cancelled_timers.
  destruct (animation_timeouts st !! tab_id tab), b; cbn;
    by rewrite ?app_nil_r.
Qed.

Lemma upai_animation_timeouts tab b st :
  animation_timeouts (update_page_action_icon tab b st) =
  if b then <[tab_id tab := next_timeout_id st]> (animation_timeouts st)
  else animation_timeouts st.
Proof.
  unfold update_page_action_icon.
  by destruct (animation_timeouts st !! tab_id tab), b.
Qed.

Lemma upai_next_timeout_id tab b st :
  next_timeout_id (update_page_action_icon tab b st) =
  if b then next_timeout_id st + 1 else next_timeout_id st.
Proof.
  unfold update_page_action_icon.
  by destruct (animation_timeouts st !! tab_id tab), b.
Qed.

Lemma upai_calls tab b st :
  calls (update_page_action_icon tab b st) =
  calls st ++ icon_calls tab (icon_path (is_theme_dark st) tab b (clock st)).
Proof.
  unfold update_page_action_icon, icon_calls.
  destruct (animation_timeouts st !! tab_id tab), b; cbn;
    by rewrite <- app_assoc.
Qed.

Lemma upai_frame tab b st :
  let st' := update_page_action_icon tab b st in
  is_theme_dark st' = is_theme_dark st ∧
  page_action_title_idle st' = page_action_title_idle st ∧
  navigation_timestamp st' = navigation_timestamp st ∧
  clock st' = clock st ∧
  pending st' = pending st.
Proof.
  unfold update_page_action_icon.
  by destruct (animation_timeouts st !! tab_id tab), b.
Qed.

End IconUpdate.


(** ** Lists: filtering a table *)

Section Filter.

Context {A : Type}.
Implicit Types (P Q : A → Prop) (l : list A).

Lemma filter_ext_elem P Q `{∀ x, Decision (P x)} `{∀ x, Decision (Q x)} l :
  (∀ x, x ∈ l → P x ↔ Q x) → filter P l = filter Q l.
Proof.
  induction l as [|x l IH]; intros HPQ; [done|].
  rewrite !filter_cons.
  rewrite IH by (intros y Hy; apply HPQ; by right).
  destruct (HPQ x) as [H1 H2]; [by left|].
  destruct (decide (P x)), (decide (Q x)); tauto.
Qed.

Lemma filter_all P `{∀ x, Decision (P x)} l :
  (∀ x, x ∈ l → P x) → filter P l = l.
Proof.
  induction l as [|x l IH]; intros HP; [done|].
  rewrite filter_cons_True by (apply HP; by left).
  f_equal. apply IH. intros y Hy. apply HP. by right.
Qed.

Lemma filter_none P `{∀ x, Decision (P x)} l :
  (∀ x, x ∈ l → ¬ P x) → filter P l = [].
Proof.
  induction l as [|x l IH]; intros HP; [done|].
  rewrite filter_cons_False by (apply HP; by left).
  apply IH. intros y Hy. apply HP. by right.
Qed.

Lemma NoDup_fmap_filter {B} (f : A → B) P `{∀ x, Decision (P x)} l :
  NoDup (f <$> l) → NoDup (f <$> filter P l).
Proof.
  induction l as [|x l IH]; [done|].
  rewrite fmap_cons, NoDup_cons. intros [Hx Hl].
  rewrite filter_cons. destruct (decide (P x)); [|by apply IH].
  rewrite fmap_cons, NoDup_cons. split; [|by apply IH].
  intros (y & Hxy & Hy%list_elem_of_filter)%list_elem_of_fmap.
  apply Hx. rewrite Hxy. apply list_elem_of_fmap_2. tauto.
Qed.

Lemma NoDup_fmap_elem_eq (key : A → Z) l x y :
  NoDup (key <$> l) → x ∈ l → y ∈ l → key x = key y → x = y.
Proof.
  induction l as [|z l IH]; [by intros _ ?%not_elem_of_nil|].
  rewrite fmap_cons, NoDup_cons. intros [Hz Hl].
  intros [->|Hx]%elem_of_cons [->|Hy]%elem_of_cons Hk; [done|..].
  - destruct Hz. rewrite Hk. by apply list_elem_of_fmap_2.
  - destruct Hz. rewrite <- Hk. by apply list_elem_of_fmap_2.
  - by apply IH.
Qed.

(** A table whose selected entries all carry one and the same key, and
    whose keys are pairwise distinct, selects at most one entry. *)
Lemma filter_unique_key (key : A → Z) P `{∀ x, Decision (P x)} l k :
  NoDup (key <$> l) →
  (∀ x, x ∈ l → P x → key x = k) →
  (length (filter P l) ≤ 1)%nat.
Proof.
  induction l as [|x l IH]; [cbn; lia|].
  rewrite fmap_cons, NoDup_cons. intros [Hx Hl] Hk.
  rewrite filter_cons. destruct (decide (P x)) as [HPx|].
  - assert (filter P l = []) as ->; [|cbn; lia].
    apply filter_none. intros y Hy HPy. apply Hx.
    rewrite (Hk x) by (done || by left).
    rewrite <- (Hk y) by (done || by right).
    by apply list_elem_of_fmap_2.
  - apply IH; [done|]. intros y Hy. apply Hk. by right.
Qed.

End Filter.

(** ** The invariant is kept by every operation *)

Section Invariant.

Implicit Types (st : State) (tab : Tab) (tm : Timer).

Lemma Inv_same st st' :
  timers st' = timers st →
  animation_timeouts st' = animation_timeouts st →
  next_timeout_id st' = next_timeout_id st →
  clock st' = clock st →
  Inv st → Inv st'.
Proof.
  intros Ht Ha Hn Hc [H1 H2 H3 H4 H5 H6].
  split; rewrite ?Ht, ?Ha, ?Hn, ?Hc; done.
Qed.

Lemma Inv_init t0 : Inv (init t0).
Proof.
  split; cbn; try (intros; exfalso; eapply not_elem_of_nil; eassumption).
  - constructor.
  - intros t k. by rewrite lookup_empty.
Qed.

(** Under the invariant, clearing the timer recorded for a tab clears
    exactly the timers of that tab. *)
Lemma cancelled_by_tab st tab :
  Inv st →
  cancelled_timers tab st =
  filter (λ tm, tab_id (timer_tab tm) ≠ tab_id tab) (timers st).
Proof.
  intros HI. unfold cancelled_timers.
  destruct (animation_timeouts st !! tab_id tab) as [id|] eqn:Hid.
  - apply filter_ext_elem. intros tm Htm. split.
    + intros Hne Heq. apply Hne.
      pose proof (inv_entry st HI tm Htm) as He. rewrite Heq in He. congruence.
    + intros Hne Heq. apply Hne. subst id.
      by apply (inv_owner st HI).
  - symmetry. apply filter_all. intros tm Htm Heq.
    pose proof (inv_entry st HI tm Htm) as He. rewrite Heq in He. congruence.
Qed.

Lemma Inv_update_page_action_icon tab b st :
  Inv st → Inv (update_page_action_icon tab b st).
Proof.
  intros HI. pose proof (cancelled_by_tab st tab HI) as Hc.
  destruct (upai_frame tab b st) as (_ & _ & _ & Hclock & _).
  assert (∀ tm, tm ∈ cancelled_timers tab st →
            tm ∈ timers st ∧ tab_id (timer_tab tm) ≠ tab_id tab) as Hold.
  { intros tm. rewrite Hc, list_elem_of_filter. tauto. }
  split; rewrite ?upai_timers, ?upai_animation_timeouts,
           ?upai_next_timeout_id, ?Hclock.
  - intros tm [Htm|Htm]%elem_of_app.
    + destruct (Hold tm Htm) as [Hin Hne]. destruct b.
      * rewrite lookup_insert_ne by done. by apply (inv_entry st).
      * by apply (inv_entry st).
    + destruct b; [|by apply not_elem_of_nil in Htm].
      apply list_elem_of_singleton in Htm as ->. cbn.
      by rewrite lookup_insert_eq.
  - intros tm [Htm|Htm]%elem_of_app.
    + destruct (Hold tm Htm) as [Hin _].
      pose proof (inv_fresh st HI tm Hin). destruct b; lia.
    + destruct b; [|by apply not_elem_of_nil in Htm].
      apply list_elem_of_singleton in Htm as ->. cbn. lia.
  - rewrite fmap_app. apply NoDup_app. split; [|split].
    + rewrite Hc. apply NoDup_fmap_filter, (inv_nodup st HI).
    + intros k (tm & -> & Htm)%list_elem_of_fmap Hk.
      destruct b; [|by apply not_elem_of_nil in Hk].
      apply list_elem_of_singleton in Hk. cbn in Hk.
      destruct (Hold tm Htm) as [Hin _].
      pose proof (inv_fresh st HI tm Hin). lia.
    + destruct b; cbn; [apply NoDup_singleton|constructor].
  - intros t k Hk. destruct b.
    + destruct (decide (tab_id tab = t)) as [<-|Hne].
      * rewrite lookup_insert_eq in Hk. injection Hk as <-. lia.
      * rewrite lookup_insert_ne in Hk by done.
        pose proof (inv_recorded st HI t k Hk). lia.
    + by apply (inv_recorded st HI t).
  - intros t tm [Htm|Htm]%elem_of_app Hk.
    + destruct (Hold tm Htm) as [Hin Hne]. destruct b.
      * destruct (decide (tab_id tab = t)) as [<-|Hne'].
        -- rewrite lookup_insert_eq in Hk. injection Hk as Hk.
           pose proof (inv_fresh st HI tm Hin). lia.
        -- rewrite lookup_insert_ne in Hk by done.
           by apply (inv_owner st HI).
      * by apply (inv_owner st HI).
    + destruct b; [|by apply not_elem_of_nil in Htm].
      apply list_elem_of_singleton in Htm as ->. cbn in *.
      destruct (decide (tab_id tab = t)) as [<-|Hne']; [done|].
      rewrite lookup_insert_ne in Hk by done.
      pose proof (inv_recorded st HI t _ Hk). lia.
  - intros tm [Htm|Htm]%elem_of_app.
    + destruct (Hold tm Htm) as [Hin _]. by apply (inv_due st HI).
    + destruct b; [|by apply not_elem_of_nil in Htm].
      apply list_elem_of_singleton in Htm as ->. cbn. lia.
Qed.

Lemma Inv_clearTimeout id st : Inv st → Inv (clearTimeout id st).
Proof.
  intros HI.
  assert (∀ tm, tm ∈ timers (clearTimeout id st) → tm ∈ timers st) as Hold.
  { intros tm. cbn. rewrite list_elem_of_filter. tauto. }
  split; cbn [clearTimeout set_timers animation_timeouts next_timeout_id clock].
  - intros tm Htm. by apply (inv_entry st HI), Hold.
  - intros tm Htm. by apply (inv_fresh st HI), Hold.
  - cbn. apply NoDup_fmap_filter, (inv_nodup st HI).
  - apply (inv_recorded st HI).
  - intros t tm Htm. by apply (inv_owner st HI), Hold.
  - intros tm Htm. by apply (inv_due st HI), Hold.
Qed.

Lemma Inv_delete t st :
  (∀ tm, tm ∈ timers st → tab_id (timer_tab tm) ≠ t) →
  Inv st →
  Inv (set_animation_timeouts (delete t (animation_timeouts st)) st).
Proof.
  intros Hno HI. split; cbn.
  - intros tm Htm. rewrite lookup_delete_ne by (symmetry; by apply Hno).
    by apply (inv_entry st HI).
  - apply (inv_fresh st HI).
  - apply (inv_nodup st HI).
  - intros t' k Hk. apply lookup_delete_Some in Hk as [_ Hk].
    by apply (inv_recorded st HI t').
  - intros t' tm Htm Hk. apply lookup_delete_Some in Hk as [_ Hk].
    by apply (inv_owner st HI).
  - apply (inv_due st HI).
Qed.

(** After an icon update no older timer of the tab is left. *)
Lemma upai_still_no_timer tab st tm :
  Inv st →
  tm ∈ timers (update_page_action_icon tab false st) →
  tab_id (timer_tab tm) ≠ tab_id tab.
Proof.
  intros HI. rewrite upai_timers, app_nil_r, cancelled_by_tab by done.
  rewrite list_elem_of_filter. tauto.
Qed.

Lemma Inv_timeout_callback tab st :
  Inv st → Inv (timeout_callback tab st).
Proof.
  intros HI. unfold timeout_callback. apply Inv_delete.
  - intros tm. by apply upai_still_no_timer.
  - by apply Inv_update_page_action_icon.
Qed.

End Invariant.

(** ** The invariant along the event loop *)

Section Loop.

Variable getMessage : string → string → string.

Implicit Types (st : State) (tab : Tab) (tm : Timer) (ev : Event).

Lemma update_page_action_calls tab st :
  calls (update_page_action getMessage tab st) =
  calls st ++
  title_calls tab (if is_loading tab
                   then Some (page_action_title_busy getMessage)
                   else page_action_title_idle st).
Proof.
  unfold update_page_action, title_calls. cbn.
  by rewrite <- !app_assoc.
Qed.

Lemma Inv_update_page_action tab st :
  Inv st → Inv (update_page_action getMessage tab st).
Proof. by apply Inv_same. Qed.

Lemma Inv_on_created tab st : Inv st → Inv (on_created getMessage tab st).
Proof.
  intros HI. by apply Inv_update_page_action_icon, Inv_update_page_action.
Qed.

Lemma Inv_show_all tabs st : Inv st → Inv (show_all getMessage tabs st).
Proof.
  unfold show_all. revert st.
  induction tabs as [|tab tabs IH]; intros st HI; [done|].
  cbn. by apply IH, Inv_on_created.
Qed.

Lemma Inv_update_all_page_action_icons_then tabs st :
  Inv st → Inv (update_all_page_action_icons_then tabs st).
Proof.
  unfold update_all_page_action_icons_then. revert st.
  induction tabs as [|tab tabs IH]; intros st HI; [done|].
  cbn. by apply IH, Inv_update_page_action_icon.
Qed.

Lemma Inv_on_navigation_then details tab st :
  Inv st → Inv (on_navigation_then getMessage details tab st).
Proof.
  intros HI. unfold on_navigation_then.
  eapply Inv_same;
    [..|by apply Inv_update_page_action_icon, Inv_update_page_action]; done.
Qed.

Lemma Inv_detect_theme extensions st :
  Inv st → Inv (completion_state (detect_theme extensions st)).
Proof.
  intros HI. unfold detect_theme.
  destruct (head _); [|done]. by apply (Inv_same st).
Qed.

Lemma Inv_resume p v st st' :
  resume getMessage p v st = Some st' → Inv st → Inv st'.
Proof.
  destruct p, v; cbn; intros [= <-] HI.
  - by apply Inv_detect_theme.
  - by apply (Inv_same st).
  - by apply Inv_show_all.
  - by apply Inv_update_all_page_action_icons_then.
  - by apply Inv_on_navigation_then.
Qed.

Lemma Inv_tick ms st :
  0 < ms → Inv st → Inv (set_clock (clock st + ms) st).
Proof.
  intros Hms [H1 H2 H3 H4 H5 H6]. split; try done.
  cbn. intros tm Htm. specialize (H6 tm Htm). lia.
Qed.

Lemma Inv_step ev st st' :
  step getMessage ev st = Some st' → Inv st → Inv st'.
Proof.
  destruct ev; cbn.
  - destruct (pending st !! n) as [p|]; [|done].
    intros Hr HI. eapply Inv_resume; [exact Hr|]. by apply (Inv_same st).
  - destruct (pending st !! n); [|done].
    intros [= <-] HI. by apply (Inv_same st).
  - intros [= <-] HI. unfold on_enabled.
    case_bool_decide; [|done]. by apply (Inv_same st).
  - intros [= <-]. apply Inv_on_created.
  - intros [= <-]. apply Inv_update_page_action.
  - intros [= <-] HI. unfold on_navigation.
    case_bool_decide; [done|]. by apply (Inv_same st).
  - intros [= <-] HI. unfold on_action_clicked.
    destruct (is_loading tab); by apply (Inv_same st).
  - destruct (list_find _ _) as [[i tm]|]; [|done].
    case_bool_decide; [|done].
    intros [= <-] HI. by apply Inv_timeout_callback, Inv_clearTimeout.
  - case_bool_decide as Hok; [|done].
    intros [= <-]. by apply Inv_tick.
Qed.

Lemma Inv_run evs st st' :
  run getMessage evs st = Some st' → Inv st → Inv st'.
Proof.
  revert st. induction evs as [|ev evs IH]; intros st; cbn.
  - by intros [= <-].
  - destruct (step getMessage ev st) as [st1|] eqn:Hstep; [|done].
    intros Hrun HI. eapply IH; [exact Hrun|]. by eapply Inv_step.
Qed.

Lemma Inv_reachable st : reachable getMessage st → Inv st.
Proof.
  intros (t0 & evs & Hrun). eapply Inv_run; [exact Hrun|]. apply Inv_init.
Qed.

End Loop.

(** ** One settle timer per tab *)

Section OneTimer.

Variable getMessage : string → string → string.

Implicit Types (st : State) (tab : Tab) (tm : Timer).

Lemma Inv_icon_updates ops st : Inv st → Inv (icon_updates ops st).
Proof.
  unfold icon_updates. revert st.
  induction ops as [|[tab b] ops IH]; intros st HI; [done|].
  cbn. by apply IH, Inv_update_page_action_icon.
Qed.

Lemma Inv_at_most_one st t :
  Inv st → (length (live_timers t st) ≤ 1)%nat.
Proof.
  intros HI. unfold live_timers.
  apply (filter_unique_key timer_id _ _
           (default 0 (animation_timeouts st !! t))).
  - apply (inv_nodup st HI).
  - intros tm Htm <-. by rewrite (inv_entry st HI tm Htm).
Qed.

Lemma live_after_animated tab st :
  Inv st →
  live_timers (tab_id tab) (update_page_action_icon tab true st) =
  [mkTimer (next_timeout_id st) tab (clock st + 417)].
Proof.
  intros HI. unfold live_timers.
  rewrite upai_timers, cancelled_by_tab, filter_app by done.
  rewrite filter_none.
  - by rewrite filter_cons_True.
  - intros tm [Hne _]%list_elem_of_filter. done.
Qed.

Lemma live_after_still tab st :
  Inv st →
  live_timers (tab_id tab) (update_page_action_icon tab false st) = [].
Proof.
  intros HI. unfold live_timers. apply filter_none.
  intros tm Htm. by apply (upai_still_no_timer tab st).
Qed.

(** C2.  In every state the script can reach, and after any further run of
    icon updates from there, each tab id has at most one pending settle
    timer; and two animated icon updates for one tab in immediate succession
    leave exactly one timer for that tab, the one the second update
    scheduled (the first one's timer was cleared before it). *)
Theorem at_most_one_settle_timer st ops :
  reachable getMessage st →
  let st' := icon_updates ops st in
  (∀ t, (length (live_timers t st') ≤ 1)%nat) ∧
  (∀ tab,
     live_timers (tab_id tab)
       (update_page_action_icon tab true
          (update_page_action_icon tab true st')) =
     [mkTimer (next_timeout_id st' + 1) tab (clock st' + 417)]).
Proof.
  intros Hreach st'.
  assert (Inv st') as HI by by apply Inv_icon_updates, (Inv_reachable getMessage).
  split.
  - intros t. by apply Inv_at_most_one.
  - intros tab.
    rewrite live_after_animated by by apply Inv_update_page_action_icon.
    rewrite upai_next_timeout_id.
    by destruct (upai_frame tab true st') as (_ & _ & _ & -> & _).
Qed.

End OneTimer.

(** ** Entries of the timer map *)

Section Entries.

Variable getMessage : string → string → string.

Implicit Types (st : State) (tab : Tab) (tm : Timer) (ev : Event).

Lemma keeps_entries_same st st' :
  animation_timeouts st' = animation_timeouts st → keeps_entries st st'.
Proof. intros Heq t. by rewrite Heq. Qed.

Lemma keeps_entries_trans st1 st2 st3 :
  keeps_entries st1 st2 → keeps_entries st2 st3 → keeps_entries st1 st3.
Proof. intros H12 H23 t Ht. by apply H23, H12. Qed.

Lemma keeps_entries_upai tab b st :
  keeps_entries st (update_page_action_icon tab b st).
Proof.
  intros t Ht. rewrite upai_animation_timeouts. destruct b; [|done].
  destruct (decide (tab_id tab = t)) as [<-|Hne].
  - rewrite lookup_insert_eq. by eexists.
  - by rewrite lookup_insert_ne.
Qed.

Lemma keeps_entries_on_created tab st :
  keeps_entries st (on_created getMessage tab st).
Proof.
  eapply keeps_entries_trans; [|apply keeps_entries_upai].
  by apply keeps_entries_same.
Qed.

Lemma keeps_entries_show_all tabs st :
  keeps_entries st (show_all getMessage tabs st).
Proof.
  unfold show_all. revert st.
  induction tabs as [|tab tabs IH]; intros st; [by apply keeps_entries_same|].
  cbn. eapply keeps_entries_trans; [apply keeps_entries_on_created|apply IH].
Qed.

Lemma keeps_entries_update_all tabs st :
  keeps_entries st (update_all_page_action_icons_then tabs st).
Proof.
  unfold update_all_page_action_icons_then. revert st.
  induction tabs as [|tab tabs IH]; intros st; [by apply keeps_entries_same|].
  cbn. eapply keeps_entries_trans; [apply keeps_entries_upai|apply IH].
Qed.

Lemma keeps_entries_on_navigation_then details tab st :
  keeps_entries st (on_navigation_then getMessage details tab st).
Proof.
  unfold on_navigation_then.
  eapply keeps_entries_trans; [|by apply keeps_entries_same].
  eapply keeps_entries_trans; [|apply keeps_entries_upai].
  by apply keeps_entries_same.
Qed.

Lemma keeps_entries_resume p v st st' :
  resume getMessage p v st = Some st' → keeps_entries st st'.
Proof.
  destruct p, v; cbn; intros [= <-].
  - apply keeps_entries_same. unfold detect_theme. by destruct (head _).
  - by apply keeps_entries_same.
  - apply keeps_entries_show_all.
  - apply keeps_entries_update_all.
  - apply keeps_entries_on_navigation_then.
Qed.

(** An entry leaves the timer map only in the callback of a timer of that
    tab that fires. *)
Lemma entry_deleted_by_timeout ev st st' t :
  step getMessage ev st = Some st' →
  is_Some (animation_timeouts st !! t) →
  animation_timeouts st' !! t = None →
  ∃ tm, ev = E_timeout (timer_id tm) ∧ tm ∈ timers st ∧
        tab_id (timer_tab tm) = t ∧ timer_due tm ≤ clock st.
Proof.
  intros Hstep Hin Hout.
  assert (keeps_entries st st' → False) as Hkeeps.
  { intros Hk. apply Hk in Hin as [k Hk']. congruence. }
  destruct ev; cbn in Hstep.
  - destruct (pending st !! n) as [p|]; [|done].
    destruct Hkeeps. eapply keeps_entries_trans;
      [|eapply keeps_entries_resume; exact Hstep].
    by apply keeps_entries_same.
  - destruct (pending st !! n); [|done]. injection Hstep as <-.
    destruct Hkeeps. by apply keeps_entries_same.
  - injection Hstep as <-. destruct Hkeeps. apply keeps_entries_same.
    unfold on_enabled. by case_bool_decide.
  - injection Hstep as <-. destruct Hkeeps. apply keeps_entries_on_created.
  - injection Hstep as <-. destruct Hkeeps. by apply keeps_entries_same.
  - injection Hstep as <-. destruct Hkeeps. apply keeps_entries_same.
    unfold on_navigation. by case_bool_decide.
  - injection Hstep as <-. destruct Hkeeps. apply keeps_entries_same.
    unfold on_action_clicked. by destruct (is_loading tab).
  - destruct (list_find _ _) as [[i tm]|] eqn:Hfind; [|done].
    case_bool_decide as Hdue; [|done]. injection Hstep as <-.
    apply list_find_Some in Hfind as (Hi & <- & _).
    exists tm. split; [done|]. split; [by eapply list_elem_of_lookup_2|].
    split; [|done].
    destruct (decide (tab_id (timer_tab tm) = t)) as [|Hne]; [done|].
    destruct Hkeeps. unfold timeout_callback.
    intros t' Ht'. cbn [animation_timeouts set_animation_timeouts].
    destruct (decide (tab_id (timer_tab tm) = t')) as [<-|Hne'].
    + exfalso. revert Hout. unfold timeout_callback.
      cbn [animation_timeouts set_animation_timeouts].
      rewrite lookup_delete_ne by done.
      rewrite upai_animation_timeouts. cbn.
      destruct Hin as [k Hk]. by rewrite Hk.
    + rewrite lookup_delete_ne by done.
      by rewrite upai_animation_timeouts.
  - case_bool_decide; [|done]. injection Hstep as <-.
    destruct Hkeeps. by apply keeps_entries_same.
Qed.

(** C10.  When a still-frame icon update finds a pending settle timer
    recorded for the tab, it clears the timer and leaves the map entry as it
    was: the tab is still in the map, with the id of a timer that is no
    longer pending, and no timer of that tab is pending.  An entry leaves
    the map only in a step in which a timer of that tab fires. *)
Theorem stale_entry_after_still_update st tab k :
  reachable getMessage st →
  animation_timeouts st !! tab_id tab = Some k →
  k ∈ timer_ids st →
  let st' := update_page_action_icon tab false st in
  animation_timeouts st' !! tab_id tab = Some k ∧
  (k ∉ timer_ids st') ∧
  live_timers (tab_id tab) st' = [] ∧
  (∀ ev st1 st2 t,
     step getMessage ev st1 = Some st2 →
     is_Some (animation_timeouts st1 !! t) →
     animation_timeouts st2 !! t = None →
     ∃ tm, ev = E_timeout (timer_id tm) ∧ tm ∈ timers st1 ∧
           tab_id (timer_tab tm) = t ∧ timer_due tm ≤ clock st1).
Proof.
  intros Hreach Hk Hpending st'.
  pose proof (Inv_reachable getMessage st Hreach) as HI.
  split; [|split; [|split]].
  - subst st'. by rewrite upai_animation_timeouts.
  - subst st'. unfold timer_ids.
    rewrite upai_timers, app_nil_r. unfold cancelled_timers. rewrite Hk.
    intros (tm & -> & [Hne _]%list_elem_of_filter)%list_elem_of_fmap. done.
  - by apply live_after_still.
  - intros ev st1 st2 t. apply entry_deleted_by_timeout.
Qed.

End Entries.

(** ** A pending settle timer until it fires or is superseded *)

Section Settle.

Variable getMessage : string → string → string.

Implicit Types (st : State) (tab : Tab) (tm : Timer) (ev : Event).

Lemma kos_same st st' new :
  calls st' = calls st ++ new → timers st' = timers st →
  kept_or_superseded st st'.
Proof. intros Hc Ht. exists new. split; [done|]. rewrite Ht. tauto. Qed.

Lemma kos_trans st1 st2 st3 :
  kept_or_superseded st1 st2 → kept_or_superseded st2 st3 →
  kept_or_superseded st1 st3.
Proof.
  intros (new1 & Hc1 & H1) (new2 & Hc2 & H2). exists (new1 ++ new2).
  split; [by rewrite Hc2, Hc1, app_assoc|].
  intros tm Htm. destruct (H1 tm Htm) as [Hin|[path Hp]].
  - destruct (H2 tm Hin) as [?|[path Hp]]; [by left|].
    right. exists path. apply elem_of_app. by right.
  - right. exists path. apply elem_of_app. by left.
Qed.

Lemma cancelled_subseteq tab st tm :
  tm ∈ cancelled_timers tab st → tm ∈ timers st.
Proof.
  unfold cancelled_timers.
  destruct (animation_timeouts st !! tab_id tab); [|done].
  rewrite list_elem_of_filter. tauto.
Qed.

Lemma kos_upai tab b st :
  Inv st → kept_or_superseded st (update_page_action_icon tab b st).
Proof.
  intros HI. eexists. split; [apply upai_calls|].
  intros tm Htm.
  destruct (decide (tab_id (timer_tab tm) = tab_id tab)) as [->|Hne].
  - right. eexists. apply elem_of_cons. by left.
  - left. rewrite upai_timers, cancelled_by_tab by done.
    apply elem_of_app. left. by apply list_elem_of_filter.
Qed.

Lemma kos_on_created tab st :
  Inv st → kept_or_superseded st (on_created getMessage tab st).
Proof.
  intros HI. eapply kos_trans.
  - eapply kos_same; [apply update_page_action_calls|done].
  - by apply kos_upai, Inv_update_page_action.
Qed.

Lemma kos_show_all tabs st :
  Inv st → kept_or_superseded st (show_all getMessage tabs st).
Proof.
  unfold show_all. revert st.
  induction tabs as [|tab tabs IH]; intros st HI.
  - apply (kos_same _ _ []); [by rewrite app_nil_r|done].
  - cbn. eapply kos_trans; [by apply kos_on_created|].
    by apply IH, Inv_on_created.
Qed.

Lemma kos_update_all tabs st :
  Inv st →
  kept_or_superseded st (update_all_page_action_icons_then tabs st).
Proof.
  unfold update_all_page_action_icons_then. revert st.
  induction tabs as [|tab tabs IH]; intros st HI.
  - apply (kos_same _ _ []); [by rewrite app_nil_r|done].
  - cbn. eapply kos_trans; [by apply kos_upai|].
    by apply IH, Inv_update_page_action_icon.
Qed.

Lemma kos_on_navigation_then details tab st :
  Inv st →
  kept_or_superseded st (on_navigation_then getMessage details tab st).
Proof.
  intros HI. unfold on_navigation_then.
  eapply kos_trans; [|apply (kos_same _ _ []); [by rewrite app_nil_r|done]].
  eapply kos_trans.
  - eapply kos_same; [apply update_page_action_calls|done].
  - by apply kos_upai, Inv_update_page_action.
Qed.

Lemma kos_quiet st st' :
  calls st' = calls st → timers st' = timers st → kept_or_superseded st st'.
Proof. intros Hc Ht. apply (kos_same _ _ []); [by rewrite app_nil_r|done]. Qed.

Lemma kos_resume p v st st' :
  resume getMessage p v st = Some st' → Inv st → kept_or_superseded st st'.
Proof.
  destruct p, v; cbn; intros [= <-] HI.
  - unfold detect_theme. destruct (head _); by apply kos_quiet.
  - by apply kos_quiet.
  - by apply kos_show_all.
  - by apply kos_update_all.
  - by apply kos_on_navigation_then.
Qed.

(** The timer that fires is the one entry of the table with that id. *)
Lemma find_pending_timer st tm :
  Inv st → tm ∈ timers st →
  ∃ i, list_find (λ tm', timer_id tm' = timer_id tm) (timers st) = Some (i, tm).
Proof.
  intros HI Htm.
  destruct (list_find_elem_of (λ tm', timer_id tm' = timer_id tm)
              (timers st) tm Htm eq_refl) as [[i tm'] Hfind].
  exists i. rewrite Hfind. do 2 f_equal.
  apply list_find_Some in Hfind as (Hi & Hid & _).
  apply (NoDup_fmap_elem_eq timer_id (timers st));
    [apply (inv_nodup st HI)|by eapply list_elem_of_lookup_2|done|done].
Qed.

Lemma kos_timeout tm st :
  Inv st → tm ∈ timers st →
  kept_or_superseded st
    (timeout_callback (timer_tab tm) (clearTimeout (timer_id tm) st)).
Proof.
  intros HI Htm. eexists. split.
  { unfold timeout_callback.
    cbn [calls set_animation_timeouts]. rewrite upai_calls. reflexivity. }
  intros tm' Htm'.
  destruct (decide (tab_id (timer_tab tm') = tab_id (timer_tab tm)))
    as [->|Hne].
  - right. eexists. apply elem_of_cons. by left.
  - left. unfold timeout_callback. cbn [timers set_animation_timeouts].
    rewrite upai_timers, app_nil_r, cancelled_by_tab
      by by apply Inv_clearTimeout.
    apply list_elem_of_filter. split; [done|].
    cbn. apply list_elem_of_filter. split; [|done].
    intros Heq. destruct Hne.
    by rewrite (NoDup_fmap_elem_eq timer_id (timers st) tm' tm
                  (inv_nodup st HI) Htm' Htm Heq).
Qed.

Lemma kos_step ev st st' :
  step getMessage ev st = Some st' → Inv st → kept_or_superseded st st'.
Proof.
  destruct ev; cbn.
  - destruct (pending st !! n) as [p|]; [|done]. intros Hr HI.
    eapply kos_trans; [|eapply kos_resume; [exact Hr|by apply (Inv_same st)]].
    by apply kos_quiet.
  - destruct (pending st !! n); [|done]. intros [= <-] _. by apply kos_quiet.
  - intros [= <-] _. unfold on_enabled. case_bool_decide; by apply kos_quiet.
  - intros [= <-]. apply kos_on_created.
  - intros [= <-] _.
    eapply kos_same; [apply update_page_action_calls|done].
  - intros [= <-] _. unfold on_navigation.
    case_bool_decide; by apply kos_quiet.
  - intros [= <-] _. unfold on_action_clicked.
    destruct (is_loading tab); by eapply kos_same.
  - destruct (list_find _ _) as [[i tm]|] eqn:Hfind; [|done].
    case_bool_decide; [|done]. intros [= <-] HI.
    apply list_find_Some in Hfind as (Hi & <- & _).
    apply kos_timeout; [done|by eapply list_elem_of_lookup_2].
  - case_bool_decide; [|done]. intros [= <-] _. by apply kos_quiet.
Qed.

Lemma nir_same st st' :
  timers st' = timers st → next_timeout_id st' = next_timeout_id st →
  no_id_reused st st'.
Proof. intros Ht Hn. split; [lia|]. rewrite Ht. tauto. Qed.

Lemma nir_trans st1 st2 st3 :
  no_id_reused st1 st2 → no_id_reused st2 st3 → no_id_reused st1 st3.
Proof.
  intros [Hn1 H1] [Hn2 H2]. split; [lia|].
  intros tm Htm. destruct (H2 tm Htm) as [Hin|Hge]; [|right; lia].
  by apply H1.
Qed.

Lemma nir_upai tab b st : no_id_reused st (update_page_action_icon tab b st).
Proof.
  split; [rewrite upai_next_timeout_id; destruct b; lia|].
  intros tm. rewrite upai_timers.
  intros [Htm|Htm]%elem_of_app; [left; by eapply cancelled_subseteq|].
  destruct b; [|by apply not_elem_of_nil in Htm].
  apply list_elem_of_singleton in Htm as ->. right. cbn. lia.
Qed.

Lemma nir_on_created tab st : no_id_reused st (on_created getMessage tab st).
Proof.
  eapply nir_trans; [|apply nir_upai]. by apply nir_same.
Qed.

Lemma nir_show_all tabs st : no_id_reused st (show_all getMessage tabs st).
Proof.
  unfold show_all. revert st.
  induction tabs as [|tab tabs IH]; intros st; [by apply nir_same|].
  cbn. eapply nir_trans; [apply nir_on_created|apply IH].
Qed.

Lemma nir_update_all tabs st :
  no_id_reused st (update_all_page_action_icons_then tabs st).
Proof.
  unfold update_all_page_action_icons_then. revert st.
  induction tabs as [|tab tabs IH]; intros st; [by apply nir_same|].
  cbn. eapply nir_trans; [apply nir_upai|apply IH].
Qed.

Lemma nir_clearTimeout id st : no_id_reused st (clearTimeout id st).
Proof.
  split; [done|]. intros tm. cbn. rewrite list_elem_of_filter. tauto.
Qed.

Lemma nir_resume p v st st' :
  resume getMessage p v st = Some st' → no_id_reused st st'.
Proof.
  destruct p, v; cbn; intros [= <-].
  - unfold detect_theme. destruct (head _); by apply nir_same.
  - by apply nir_same.
  - apply nir_show_all.
  - apply nir_update_all.
  - unfold on_navigation_then.
    eapply nir_trans; [|by apply nir_same].
    eapply nir_trans; [|apply nir_upai]. by apply nir_same.
Qed.

Lemma nir_step ev st st' :
  step getMessage ev st = Some st' → no_id_reused st st'.
Proof.
  destruct ev; cbn.
  - destruct (pending st !! n) as [p|]; [|done]. intros Hr.
    eapply nir_trans; [|eapply nir_resume; exact Hr]. by apply nir_same.
  - destruct (pending st !! n); [|done]. intros [= <-]. by apply nir_same.
  - intros [= <-]. unfold on_enabled. case_bool_decide; by apply nir_same.
  - intros [= <-]. apply nir_on_created.
  - intros [= <-]. by apply nir_same.
  - intros [= <-]. unfold on_navigation. case_bool_decide; by apply nir_same.
  - intros [= <-]. unfold on_action_clicked.
    destruct (is_loading tab); by apply nir_same.
  - destruct (list_find _ _) as [[i tm]|]; [|done].
    case_bool_decide; [|done]. intros [= <-]. unfold timeout_callback.
    eapply nir_trans; [apply nir_clearTimeout|].
    eapply nir_trans; [apply nir_upai|]. by apply nir_same.
  - case_bool_decide; [|done]. intros [= <-]. by apply nir_same.
Qed.

Lemma nir_run evs st st' :
  run getMessage evs st = Some st' → no_id_reused st st'.
Proof.
  revert st. induction evs as [|ev evs IH]; intros st; cbn.
  - intros [= <-]. by apply nir_same.
  - destruct (step getMessage ev st) as [st1|] eqn:Hstep; [|done].
    intros Hrun. eapply nir_trans; [by eapply nir_step|by apply IH].
Qed.

(** A timer id that was handed out and is not in the table stays out. *)
Lemma cleared_stays_cleared k st st' :
  no_id_reused st st' → k < next_timeout_id st → k ∉ timer_ids st →
  k ∉ timer_ids st'.
Proof.
  intros [_ Hold] Hk Hout (tm & -> & Htm)%list_elem_of_fmap.
  destruct (Hold tm Htm) as [Hin|Hge]; [|lia].
  apply Hout. by apply list_elem_of_fmap_2.
Qed.

Lemma timeout_not_pending k st :
  k ∉ timer_ids st → step getMessage (E_timeout k) st = None.
Proof.
  intros Hout. cbn.
  destruct (list_find _ _) as [[i tm]|] eqn:Hfind; [|done].
  apply list_find_Some in Hfind as (Hi & <- & _).
  destruct Hout. apply list_elem_of_fmap_2. by eapply list_elem_of_lookup_2.
Qed.

(** An icon update for the tab of a pending timer clears that timer. *)
Lemma upai_supersedes tab b st tm :
  Inv st → tm ∈ timers st → tab_id tab = tab_id (timer_tab tm) →
  timer_id tm ∉ timer_ids (update_page_action_icon tab b st).
Proof.
  intros HI Htm Htab. unfold timer_ids.
  rewrite upai_timers, cancelled_by_tab by done.
  intros (tm' & Hid & [Hin|Hin]%elem_of_app)%list_elem_of_fmap.
  - apply list_elem_of_filter in Hin as [Hne Hin]. apply Hne.
    rewrite (NoDup_fmap_elem_eq timer_id (timers st) tm' tm
               (inv_nodup st HI) Hin Htm); done.
  - destruct b; [|by apply not_elem_of_nil in Hin].
    apply list_elem_of_singleton in Hin as ->. cbn in Hid.
    pose proof (inv_fresh st HI tm Htm). lia.
Qed.

Lemma icon_path_still dark tab now :
  icon_path dark tab false now = still_icon dark (is_loading tab).
Proof. unfold icon_path, still_icon. by destruct dark, (is_loading tab). Qed.

Lemma icon_path_clip dark tab now :
  icon_path dark tab true now = clip_icon dark (is_loading tab) now.
Proof. unfold icon_path, clip_icon. by destruct dark, (is_loading tab). Qed.

Lemma shown_icon_icon_calls s tab path l :
  shown_icon s (tab_id tab) (l ++ icon_calls tab path) = Some path.
Proof.
  unfold shown_icon. induction l as [|c l IH].
  - unfold icon_calls. cbn.
    repeat case_decide; try done; exfalso; destruct s; intuition congruence.
  - cbn [app last_set]. by rewrite IH.
Qed.

(** C4 (amended).  Let [tm] be a settle timer pending in a state the script
    can reach; [timer_tab tm] is the tab object the animation was started
    with.
    - An animated icon update at instant [clock st] sets the clip of the
      tab's load state on both surfaces and registers for the tab the timer
      due at [clock st + 417] that captured that tab object, and nothing else
      for that tab.
    - The timer was set for 417 ms after an instant that is not in the
      future, and it cannot fire before it is due.
    - Once it is due it can fire, and when it does both surfaces get the
      still icon of the captured load state (the stop icon for a loading tab,
      the reload icon otherwise) in the theme variant of that moment; that is
      the icon the tab then shows, and no timer of the tab is left.
    - Any other step leaves it pending unless an icon of its tab is set.
    - An icon update for its tab, animated or not, clears it, and from then
      on it is never in the table again and cannot fire. *)
Theorem animation_settles_unless_superseded st tm :
  reachable getMessage st →
  tm ∈ timers st →
  let t := tab_id (timer_tab tm) in
  (∀ tab,
     calls (update_page_action_icon tab true st) =
       calls st ++
       [SetIcon pageAction (tab_id tab)
          (clip_icon (is_theme_dark st) (is_loading tab) (clock st));
        SetIcon browserAction (tab_id tab)
          (clip_icon (is_theme_dark st) (is_loading tab) (clock st))] ∧
     live_timers (tab_id tab) (update_page_action_icon tab true st) =
       [mkTimer (next_timeout_id st) tab (clock st + 417)]) ∧
  timer_due tm ≤ clock st + 417 ∧
  (clock st < timer_due tm →
   step getMessage (E_timeout (timer_id tm)) st = None) ∧
  (timer_due tm ≤ clock st →
   ∃ st', step getMessage (E_timeout (timer_id tm)) st = Some st' ∧
     calls st' =
       calls st ++
       [SetIcon pageAction t
          (still_icon (is_theme_dark st) (is_loading (timer_tab tm)));
        SetIcon browserAction t
          (still_icon (is_theme_dark st) (is_loading (timer_tab tm)))] ∧
     shown_icon pageAction t (calls st') =
       Some (still_icon (is_theme_dark st) (is_loading (timer_tab tm))) ∧
     shown_icon browserAction t (calls st') =
       Some (still_icon (is_theme_dark st) (is_loading (timer_tab tm))) ∧
     live_timers t st' = []) ∧
  (∀ ev st', step getMessage ev st = Some st' →
     ∃ new, calls st' = calls st ++ new ∧
       (tm ∈ timers st' ∨ ∃ path, SetIcon pageAction t path ∈ new)) ∧
  (∀ tab b evs st',
     tab_id tab = t →
     run getMessage evs (update_page_action_icon tab b st) = Some st' →
     (timer_id tm ∉ timer_ids st') ∧
     step getMessage (E_timeout (timer_id tm)) st' = None).
Proof.
  intros Hreach Htm t.
  pose proof (Inv_reachable getMessage st Hreach) as HI.
  split; [|split; [|split; [|split; [|split]]]].
  - intros tab. split; [|by apply live_after_animated].
    by rewrite upai_calls, icon_path_clip.
  - by apply (inv_due st HI).
  - intros Hearly. destruct (find_pending_timer st tm HI Htm) as [i Hfind].
    cbn. rewrite Hfind. by rewrite bool_decide_eq_false_2 by lia.
  - intros Hdue. destruct (find_pending_timer st tm HI Htm) as [i Hfind].
    assert (calls (timeout_callback (timer_tab tm)
                     (clearTimeout (timer_id tm) st)) =
            calls st ++
            icon_calls (timer_tab tm)
              (still_icon (is_theme_dark st) (is_loading (timer_tab tm))))
      as Hcalls.
    { unfold timeout_callback. cbn [calls set_animation_timeouts].
      by rewrite upai_calls, icon_path_still. }
    eexists. split.
    { cbn. rewrite Hfind. by rewrite bool_decide_eq_true_2. }
    split; [exact Hcalls|].
    split; [rewrite Hcalls; apply shown_icon_icon_calls|].
    split; [rewrite Hcalls; apply shown_icon_icon_calls|].
    unfold live_timers, timeout_callback.
    cbn [timers set_animation_timeouts].
    apply (live_after_still (timer_tab tm)). by apply Inv_clearTimeout.
  - intros ev st' Hstep.
    destruct (kos_step ev st st' Hstep HI) as (new & Hcalls & Hkeep).
    exists new. split; [done|]. by apply Hkeep.
  - intros tab b evs st' Htab Hrun.
    assert (timer_id tm ∉ timer_ids st') as Hout.
    { eapply cleared_stays_cleared; [by eapply nir_run| |].
      - rewrite upai_next_timeout_id.
        pose proof (inv_fresh st HI tm Htm). destruct b; lia.
      - by apply upai_supersedes. }
    split; [done|]. by apply timeout_not_pending.
Qed.

End Settle.

(** ** Debouncing *)

Section Debounce.

Variable getMessage : string → string → string.

Implicit Types (st : State) (tab : Tab) (d : Details).

Lemma on_navigation_then_records d tab st :
  navigation_timestamp (on_navigation_then getMessage d tab st) !! tabId d =
  Some (timeStamp d).
Proof. unfold on_navigation_then. cbn. by rewrite lookup_insert_eq. Qed.


Lemma should_animate_next d last st :
  navigation_timestamp st !! tabId d = Some last →
  should_animate d st = bool_decide (417 ≤ timeStamp d - last).
Proof.
  intros Hlast. unfold should_animate. rewrite Hlast. cbn.
  repeat case_bool_decide; done || lia.
Qed.

Lemma on_navigation_then_calls d tab st :
  calls (on_navigation_then getMessage d tab st) =
  calls st ++
  title_calls tab (if is_loading tab
                   then Some (page_action_title_busy getMessage)
                   else page_action_title_idle st) ++
  icon_calls tab
    (icon_path (is_theme_dark st) tab (should_animate d st) (clock st)).
Proof.
  unfold on_navigation_then. cbn [calls set_navigation_timestamp].
  rewrite upai_calls, update_page_action_calls. by rewrite <- app_assoc.
Qed.




End Debounce.

(** ** Icon paths *)

Section IconPath.

Implicit Types (st : State) (tab : Tab).

(** C3 (amended).  The path is [data/<asset>_<variant>.svg]: the asset is
    [stop_to_reload] for a loading tab and [reload_to_stop] for an idle one
    in the transition phase, [stop] for a loading tab and [reload] for an
    idle one in the settled phase; the variant is [dark] or [light] by the
    theme flag alone; the transition phase appends [?t=] and the reading of
    the clock.  Both surfaces are given this path. *)
Theorem icon_path_table dark tab is_animated now st :
  icon_path dark tab is_animated now =
    "data/" +:+ asset_name is_animated (is_loading tab) +:+ "_" +:+
    theme_variant dark +:+ ".svg" +:+
    (if is_animated then "?t=" +:+ pretty now else "") ∧
  calls (update_page_action_icon tab is_animated st) =
    calls st ++
    [SetIcon pageAction (tab_id tab)
       (icon_path (is_theme_dark st) tab is_animated (clock st));
     SetIcon browserAction (tab_id tab)
       (icon_path (is_theme_dark st) tab is_animated (clock st))].
Proof.
  split; [|apply upai_calls].
  unfold icon_path. by destruct is_animated, dark, (is_loading tab).
Qed.

Lemma transition_path_inj dark tab n1 n2 :
  icon_path dark tab true n1 = icon_path dark tab true n2 → n1 = n2.
Proof.
  unfold icon_path. intros Heq.
  apply (inj (String.app _)), (inj (String.app _)) in Heq.
  by apply (inj pretty).
Qed.

(** C7 (amended).  The path depends on the tab through its load state only.
    In the settled phase it does not depend on the clock; in the transition
    phase two results for the same load state and theme are equal exactly
    when the two readings of the clock are equal. *)
Theorem icon_path_purity dark tab1 tab2 n1 n2 :
  is_loading tab1 = is_loading tab2 →
  icon_path dark tab1 false n1 = icon_path dark tab2 false n2 ∧
  (icon_path dark tab1 true n1 = icon_path dark tab2 true n2 ↔ n1 = n2).
Proof.
  intros Hload.
  assert (∀ b n, icon_path dark tab1 b n = icon_path dark tab2 b n) as Htab.
  { intros b n. unfold icon_path. by rewrite Hload. }
  split.
  - rewrite Htab. unfold icon_path. done.
  - rewrite Htab. split; [apply transition_path_inj|by intros ->].
Qed.

End IconPath.

(** ** The controller: titles, creation, update, startup, themes *)

Section Controller.

Variable getMessage : string → string → string.

Implicit Types (st : State) (tab : Tab) (tm : Timer).

Local Abbreviation busy := (page_action_title_busy getMessage).

Lemma update_all_calls tabs st :
  calls (update_all_page_action_icons_then tabs st) =
  calls st ++ (tabs ≫= animated_icon_calls st).
Proof.
  unfold update_all_page_action_icons_then.
  assert (∀ st', is_theme_dark st' = is_theme_dark st → clock st' = clock st →
    calls (foldl (λ st tab, update_page_action_icon tab true st) st' tabs) =
    calls st' ++ (tabs ≫= animated_icon_calls st)) as Hgen; [|by apply Hgen].
  induction tabs as [|tab tabs IH]; intros st' Hdark Hclock.
  - cbn. by rewrite app_nil_r.
  - cbn [foldl]. rewrite bind_cons.
    destruct (upai_frame tab true st') as (Hd & _ & _ & Hc & _).
    rewrite IH by congruence.
    rewrite upai_calls, <- app_assoc. unfold animated_icon_calls.
    by rewrite Hdark, Hclock.
Qed.

Lemma show_all_calls tabs st :
  calls (show_all getMessage tabs st) =
  calls st ++
  (tabs ≫= λ tab,
     title_calls tab (action_title busy st tab) ++ animated_icon_calls st tab).
Proof.
  unfold show_all.
  assert (∀ st', is_theme_dark st' = is_theme_dark st → clock st' = clock st →
    page_action_title_idle st' = page_action_title_idle st →
    calls (foldl (λ st tab, update_page_action_icon tab true
                               (update_page_action getMessage tab st))
             st' tabs) =
    calls st' ++
    (tabs ≫= λ tab, title_calls tab (action_title busy st tab) ++
                     animated_icon_calls st tab)) as Hgen; [|by apply Hgen].
  induction tabs as [|tab tabs IH]; intros st' Hdark Hclock Hidle.
  - cbn. by rewrite app_nil_r.
  - cbn [foldl]. rewrite bind_cons.
    destruct (upai_frame tab true (update_page_action getMessage tab st'))
      as (Hd & Hi & _ & Hc & _).
    rewrite IH by (cbn in *; congruence).
    rewrite upai_calls, update_page_action_calls, <- !app_assoc.
    unfold animated_icon_calls, action_title. cbn.
    by rewrite Hdark, Hclock, Hidle.
Qed.

Lemma has_timer_upai_animated tab st :
  has_timer (tab_id tab) (update_page_action_icon tab true st).
Proof.
  exists (mkTimer (next_timeout_id st) tab (clock st + 417)).
  split; [|done].
  rewrite upai_timers. apply elem_of_app. right. by left.
Qed.

Lemma has_timer_upai_other t tab b st :
  Inv st → tab_id tab ≠ t → has_timer t st →
  has_timer t (update_page_action_icon tab b st).
Proof.
  intros HI Hne (tm & Htm & Ht). exists tm. split; [|done].
  rewrite upai_timers, cancelled_by_tab by done.
  apply elem_of_app. left. apply list_elem_of_filter. split; [congruence|done].
Qed.

Lemma has_timer_show_all t tabs st :
  Inv st → t ∈ tab_id <$> tabs ∨ has_timer t st →
  has_timer t (show_all getMessage tabs st).
Proof.
  unfold show_all. revert st.
  induction tabs as [|tab tabs IH]; intros st HI Hcase.
  - destruct Hcase as [Hin|Hhas]; [by apply not_elem_of_nil in Hin|done].
  - cbn [foldl]. apply IH; [by apply (Inv_on_created getMessage)|].
    destruct (decide (t ∈ tab_id <$> tabs)) as [|Hnotin]; [by left|right].
    destruct (decide (tab_id tab = t)) as [<-|Hne].
    + apply has_timer_upai_animated.
    + apply has_timer_upai_other; [by apply Inv_update_page_action|done|].
      destruct Hcase as [Hin|Hhas]; [|done].
      rewrite fmap_cons in Hin. apply elem_of_cons in Hin as [?|?]; done.
Qed.

(** C5 (amended).  On tab creation the controller shows the action, sets the
    title on both surfaces (the busy title for a loading tab, otherwise the
    current value of the idle title) and makes an animated icon update, which
    leaves one settle timer for the tab.  On an [updated] notification it
    shows the action and sets the title, and does nothing else: no icon is
    set, the timer table and the timer map are as they were.  The startup
    enumeration does for every tab what creation does, the animated icon
    update included: every enumerated tab has a settle timer afterwards. *)
Theorem created_updated_startup st tab id tabs :
  reachable getMessage st →
  (calls (on_created getMessage tab st) =
     calls st ++ title_calls tab (action_title busy st tab) ++
     animated_icon_calls st tab ∧
   live_timers (tab_id tab) (on_created getMessage tab st) =
     [mkTimer (next_timeout_id st) tab (clock st + 417)]) ∧
  (calls (on_updated getMessage id tab st) =
     calls st ++ title_calls tab (action_title busy st tab) ∧
   timers (on_updated getMessage id tab st) = timers st ∧
   animation_timeouts (on_updated getMessage id tab st) =
     animation_timeouts st) ∧
  (calls (show_all getMessage tabs st) =
     calls st ++
     (tabs ≫= λ tab, title_calls tab (action_title busy st tab) ++
                      animated_icon_calls st tab) ∧
   ∀ tab', tab' ∈ tabs →
     has_timer (tab_id tab') (show_all getMessage tabs st)).
Proof.
  intros Hreach. pose proof (Inv_reachable getMessage st Hreach) as HI.
  split; [|split]; split.
  - unfold on_created.
    by rewrite upai_calls, update_page_action_calls, <- app_assoc.
  - unfold on_created.
    by rewrite live_after_animated by by apply Inv_update_page_action.
  - apply update_page_action_calls.
  - done.
  - apply show_all_calls.
  - intros tab' Hin. apply has_timer_show_all; [done|].
    left. by apply list_elem_of_fmap_2.
Qed.

Lemma tabs_query_all tabs : tabs_query query_all tabs = open_tab <$> tabs.
Proof. unfold tabs_query. by rewrite filter_all. Qed.

Lemma clip_calls_animated st tab :
  animated_icon_calls st tab = clip_calls (is_theme_dark st) (clock st) tab.
Proof.
  unfold animated_icon_calls, icon_calls, clip_calls.
  by rewrite icon_path_clip.
Qed.

Lemma update_all_flag_pending tabs st :
  is_theme_dark (update_all_page_action_icons_then tabs st) =
    is_theme_dark st ∧
  pending (update_all_page_action_icons_then tabs st) = pending st.
Proof.
  unfold update_all_page_action_icons_then. revert st.
  induction tabs as [|tab tabs IH]; intros st; [done|].
  cbn [foldl]. destruct (IH (update_page_action_icon tab true st)) as [-> ->].
  by destruct (upai_frame tab true st) as (-> & _ & _ & _ & ->).
Qed.

(** When the query of an icon refresh resolves, every open tab gets the
    clip of its load state, in the theme variant of that moment, on both
    surfaces. *)
Lemma refresh_query_resolved b n :
  pending (script b) !! n = Some (P_tabs_query_icons query_all) →
  ∃ b', browse getMessage (B_query_resolved n) b = Some b' ∧
    open_tabs b' = open_tabs b ∧
    is_theme_dark (script b') = is_theme_dark (script b) ∧
    pending (script b') = delete n (pending (script b)) ∧
    calls (script b') =
      calls (script b) ++
      ((open_tab <$> open_tabs b) ≫=
       clip_calls (is_theme_dark (script b)) (clock (script b))) ∧
    ∀ ot, ot ∈ open_tabs b →
      SetIcon pageAction (tab_id (open_tab ot))
        (clip_icon (is_theme_dark (script b)) (is_loading (open_tab ot))
           (clock (script b))) ∈ calls (script b') ∧
      SetIcon browserAction (tab_id (open_tab ot))
        (clip_icon (is_theme_dark (script b)) (is_loading (open_tab ot))
           (clock (script b))) ∈ calls (script b').
Proof.
  intros Hn. eexists. split.
  { cbn [browse]. rewrite Hn. cbn [step]. rewrite Hn. cbn [resume fmap
      option_fmap option_map]. reflexivity. }
  cbn [open_tabs script]. rewrite tabs_query_all.
  set (st0 := set_pending (delete n (pending (script b))) (script b)).
  destruct (update_all_flag_pending (open_tab <$> open_tabs b) st0)
    as (Hdark & Hpending).
  assert (calls (update_all_page_action_icons_then
                   (open_tab <$> open_tabs b) st0) =
          calls (script b) ++
          ((open_tab <$> open_tabs b) ≫=
           clip_calls (is_theme_dark (script b)) (clock (script b))))
    as Hcalls.
  { rewrite update_all_calls.
    apply (f_equal (λ l, calls (script b) ++ l)).
    apply list_bind_ext; [|done].
    intros tab. exact (clip_calls_animated st0 tab). }
  split; [done|]. split; [exact Hdark|]. split; [exact Hpending|].
  split; [exact Hcalls|].
  intros ot Hin. rewrite Hcalls.
  assert (∀ c, c ∈ clip_calls (is_theme_dark (script b)) (clock (script b))
                     (open_tab ot) →
              c ∈ calls (script b) ++
                  ((open_tab <$> open_tabs b) ≫=
                   clip_calls (is_theme_dark (script b))
                     (clock (script b)))) as Hsub.
  { intros c Hc. apply elem_of_app. right. apply list_elem_of_bind.
    exists (open_tab ot). split; [done|]. by apply list_elem_of_fmap_2. }
  split; apply Hsub; unfold clip_calls.
  - by left.
  - right. by left.
Qed.

(** A turn of the browser is a turn of the script's event loop, or leaves
    the script as it is: what holds of every state the script can reach
    holds of the script in every browser. *)
Lemma browse_script bev b b' :
  browse getMessage bev b = Some b' →
  script b' = script b ∨
  ∃ ev, step getMessage ev (script b) = Some (script b').
Proof.
  destruct bev as [ot|ot|id|n|n|ev]; cbn [browse].
  - case_bool_decide; [done|].
    destruct (step _ _ _) as [st'|] eqn:Hstep; [|done].
    intros [= <-]. right. by eexists.
  - case_bool_decide; [|done].
    destruct (step _ _ _) as [st'|] eqn:Hstep; [|done].
    intros [= <-]. right. by eexists.
  - intros [= <-]. by left.
  - destruct (pending (script b) !! n) as [[| |q|q|d]|]; try done;
      (destruct (step _ _ _) as [st'|] eqn:Hstep; [|done]);
      intros [= <-]; right; by eexists.
  - destruct (pending (script b) !! n) as [[| |q|q|d]|]; try done.
    destruct (step _ _ _) as [st'|] eqn:Hstep; [|done].
    intros [= <-]. right. by eexists.
  - destruct (tab_free ev); [|done].
    destruct (step _ _ _) as [st'|] eqn:Hstep; [|done].
    intros [= <-]. right. by eexists.
Qed.

Lemma browses_run bevs b b' :
  browses getMessage bevs b = Some b' →
  ∃ evs, run getMessage evs (script b) = Some (script b').
Proof.
  revert b. induction bevs as [|bev bevs IH]; intros b; cbn [browses].
  - intros [= <-]. by exists [].
  - destruct (browse getMessage bev b) as [b1|] eqn:Hstep; [|done].
    intros Hrun. destruct (IH b1 Hrun) as [evs Hevs].
    destruct (browse_script bev b b1 Hstep) as [Heq|[ev Hev]].
    + exists evs. by rewrite <- Heq.
    + exists (ev :: evs). cbn [run]. by rewrite Hev.
Qed.

(** A query that asks for the active tab only is resolved differently:
    the argument of [tabs.query] decides which tabs the callback sees. *)
Lemma tabs_query_active_only :
  tabs_query (mkQuery (Some true) None) (open_tabs sample_browser) = [tab1] ∧
  tabs_query query_all (open_tabs sample_browser) = [tab1; tab3].
Proof. by vm_compute. Qed.

(** C6.  When a theme is enabled the listener sets the flag from the id of
    the theme and asks the host for all tabs, with the query [{}]; so does
    the startup detection when it finds an enabled theme.  The host resolves
    that query to every tab that is open, and the callback then sets, for
    every open tab and on both surfaces, the clip of the tab's load state in
    the variant of the new theme.  The same holds whenever a refresh query
    resolves later: every tab open at that moment gets the clip in the
    variant of the flag of that moment. *)
Theorem theme_change_refreshes_all_tabs info b :
  ext_type info = "theme" →
  let dark := includes dark_theme_ids (ext_id info) in
  let refresh := length (pending (script b)) in
  (∃ b1 b2,
     browse getMessage (B_script (E_management_onEnabled info)) b = Some b1 ∧
     script b1 = on_enabled info (script b) ∧
     open_tabs b1 = open_tabs b ∧
     is_theme_dark (script b1) = dark ∧
     pending (script b1) =
       pending (script b) ++ [P_tabs_query_icons query_all] ∧
     browse getMessage (B_query_resolved refresh) b1 = Some b2 ∧
     open_tabs b2 = open_tabs b ∧
     is_theme_dark (script b2) = dark ∧
     calls (script b2) =
       calls (script b) ++
       ((open_tab <$> open_tabs b) ≫= clip_calls dark (clock (script b))) ∧
     ∀ ot, ot ∈ open_tabs b →
       SetIcon pageAction (tab_id (open_tab ot))
         (clip_icon dark (is_loading (open_tab ot)) (clock (script b)))
         ∈ calls (script b2) ∧
       SetIcon browserAction (tab_id (open_tab ot))
         (clip_icon dark (is_loading (open_tab ot)) (clock (script b)))
         ∈ calls (script b2)) ∧
  (∀ extensions, detect_theme (info :: extensions) (script b) =
     if ext_enabled info then Normal (on_enabled info (script b))
     else detect_theme extensions (script b)) ∧
  (∀ b' n,
     pending (script b') !! n = Some (P_tabs_query_icons query_all) →
     ∃ b'', browse getMessage (B_query_resolved n) b' = Some b'' ∧
       open_tabs b'' = open_tabs b' ∧
       calls (script b'') =
         calls (script b') ++
         ((open_tab <$> open_tabs b') ≫=
          clip_calls (is_theme_dark (script b')) (clock (script b'))) ∧
       ∀ ot, ot ∈ open_tabs b' →
         SetIcon pageAction (tab_id (open_tab ot))
           (clip_icon (is_theme_dark (script b')) (is_loading (open_tab ot))
              (clock (script b'))) ∈ calls (script b'') ∧
         SetIcon browserAction (tab_id (open_tab ot))
           (clip_icon (is_theme_dark (script b')) (is_loading (open_tab ot))
              (clock (script b'))) ∈ calls (script b'')).
Proof.
  intros Htheme dark refresh.
  assert (on_enabled info (script b) =
          await (P_tabs_query_icons query_all)
            (set_is_theme_dark dark (script b))) as Hon.
  { unfold on_enabled. by rewrite bool_decide_eq_true_2. }
  split; [|split].
  - set (b1 := mkBrowser (open_tabs b) (on_enabled info (script b))).
    assert (pending (script b1) !! refresh =
            Some (P_tabs_query_icons query_all)) as Hn.
    { subst b1 refresh. cbn [script]. rewrite Hon. cbn.
      by rewrite list_lookup_middle. }
    destruct (refresh_query_resolved b1 refresh Hn)
      as (b2 & Hstep & Htabs & Hdark & _ & Hcalls & Hicons).
    assert (is_theme_dark (script b1) = dark) as Hflag
      by (subst b1; cbn [script]; by rewrite Hon).
    assert (clock (script b1) = clock (script b)) as Hclock
      by (subst b1; cbn [script]; by rewrite Hon).
    assert (calls (script b1) = calls (script b)) as Hlog
      by (subst b1; cbn [script]; by rewrite Hon).
    rewrite Hflag, Hclock in Hcalls, Hicons. rewrite Hlog in Hcalls.
    exists b1, b2. repeat split; try done.
    + subst b1. cbn [script]. by rewrite Hon.
    + congruence.
    + by apply Hicons.
    + by apply Hicons.
  - intros extensions. unfold detect_theme, on_enabled.
    rewrite bool_decide_eq_true_2 by done. rewrite filter_cons.
    destruct (ext_enabled info) eqn:Hen.
    + by rewrite decide_True by done.
    + rewrite decide_False; [done|]. intros [_ ?]. congruence.
  - intros b' n Hn.
    destruct (refresh_query_resolved b' n Hn)
      as (b'' & Hstep & Htabs & _ & _ & Hcalls & Hicons).
    by exists b''.
Qed.

(** C8.  When the list of extensions holds no enabled theme, the callback of
    the startup detection throws: it reads [id] of [undefined].  The flag is
    not assigned, so it keeps its value, and the icon refresh that follows
    the assignment is not requested. *)
Theorem detect_theme_without_enabled_theme extensions st :
  Forall (λ ext, ¬ (ext_type ext = "theme" ∧ ext_enabled ext = true))
    extensions →
  detect_theme extensions st =
  Throw "TypeError: current_theme is undefined" st.
Proof.
  intros Hnone. unfold detect_theme. rewrite filter_none; [done|].
  intros ext Hin. rewrite Forall_forall in Hnone. by apply Hnone.
Qed.

(** C9 (amended).  While the idle title is still undefined a title update is
    neither skipped nor deferred: the action is shown and the title is set on
    both surfaces at once, to the busy title for a loading tab and to the
    undefined idle title for any other tab; nothing is left pending for
    later.  Once the platform is known the idle title is defined. *)
Theorem title_update_before_os_detection st tab os :
  page_action_title_idle st = None →
  let st' := update_page_action getMessage tab st in
  calls st' =
    calls st ++
    [Show (tab_id tab);
     SetTitle pageAction (tab_id tab)
       (if is_loading tab then Some busy else None);
     SetTitle browserAction (tab_id tab)
       (if is_loading tab then Some busy else None)] ∧
  pending st' = pending st ∧
  timers st' = timers st ∧
  page_action_title_idle st' = None ∧
  is_Some (page_action_title_idle (detect_os getMessage os st)).
Proof.
  intros Hidle st'. subst st'. rewrite update_page_action_calls, Hidle.
  split; [done|]. split; [done|]. split; [done|]. split; [done|].
  by eexists.
Qed.

End Controller.

(** ** Executions *)

Lemma sample_state_reachable : reachable sample_messages sample_state.
Proof. exists 0, sample_events. by vm_compute. Defined.


Lemma at_most_one_settle_timer_witness :
  reachable sample_messages sample_state ∧
  (length (live_timers 3 sample_state) ≤ 1)%nat ∧
  live_timers 3
    (update_page_action_icon tab3 true
       (update_page_action_icon tab3 true sample_state)) =
  [mkTimer (next_timeout_id sample_state + 1) tab3
     (clock sample_state + 417)].
Proof.
  destruct (at_most_one_settle_timer sample_messages sample_state []
              sample_state_reachable) as [Hone Htwice].
  split; [exact sample_state_reachable|].
  split; [exact (Hone 3)|exact (Htwice tab3)].
Defined.

Lemma sample_timer_pending : mkTimer 1 tab3 417 ∈ timers sample_state.
Proof. by left. Defined.

Lemma animation_settles_unless_superseded_witness :
  reachable sample_messages sample_state ∧
  mkTimer 1 tab3 417 ∈ timers sample_state ∧
  417 ≤ clock sample_state + 417 ∧
  step sample_messages (E_timeout 1) sample_state = None ∧
  ((1 ∉ timer_ids (update_page_action_icon tab3 true sample_state)) ∧
   step sample_messages (E_timeout 1)
     (update_page_action_icon tab3 true sample_state) = None).
Proof.
  destruct (animation_settles_unless_superseded sample_messages sample_state
              (mkTimer 1 tab3 417) sample_state_reachable sample_timer_pending)
    as (_ & Hdue & Hearly & _ & _ & Hsuper).
  assert (clock sample_state < timer_due (mkTimer 1 tab3 417)) as Hclock
    by (cbn; lia).
  split; [exact sample_state_reachable|].
  split; [exact sample_timer_pending|].
  split; [exact Hdue|].
  split; [exact (Hearly Hclock)|].
  exact (Hsuper tab3 true [] _ eq_refl eq_refl).
Defined.

(** C4, as stated, fails: a tab is created, which starts an animation, and
    1000 ms later, with no other event for the tab, the settle timer that
    was due at 417 ms is still pending and both surfaces still show the
    clip.  Nothing in the script bounds how late the host runs the timer. *)
Lemma late_timer_counterexample :
  (timers <$> run sample_messages [E_tabs_onCreated tab3; E_tick 1000]
                (init 0)) = Some [mkTimer 1 tab3 417] ∧
  (clock <$> run sample_messages [E_tabs_onCreated tab3; E_tick 1000]
               (init 0)) = Some 1000 ∧
  (shown_icon pageAction 3 ∘ calls <$>
   run sample_messages [E_tabs_onCreated tab3; E_tick 1000] (init 0)) =
    Some (Some "data/stop_to_reload_light.svg?t=0") ∧
  (shown_icon browserAction 3 ∘ calls <$>
   run sample_messages [E_tabs_onCreated tab3; E_tick 1000] (init 0)) =
    Some (Some "data/stop_to_reload_light.svg?t=0").
Proof. by vm_compute. Qed.

Lemma stale_entry_after_still_update_witness :
  reachable sample_messages sample_state ∧
  animation_timeouts sample_state !! 3 = Some 1 ∧
  1 ∈ timer_ids sample_state ∧
  animation_timeouts (update_page_action_icon tab3 false sample_state) !! 3 =
    Some 1 ∧
  live_timers 3 (update_page_action_icon tab3 false sample_state) = [].
Proof.
  assert (animation_timeouts sample_state !! 3 = Some 1) as Hentry
    by by vm_compute.
  assert (1 ∈ timer_ids sample_state) as Hpending by by left.
  destruct (stale_entry_after_still_update sample_messages sample_state
              tab3 1 sample_state_reachable Hentry Hpending)
    as (Hkept & _ & Hnone & _).
  split; [exact sample_state_reachable|].
  split; [exact Hentry|]. split; [exact Hpending|].
  split; [exact Hkept|exact Hnone].
Defined.

Lemma created_updated_startup_witness :
  reachable sample_messages sample_state ∧
  calls (on_updated sample_messages 3 tab3 sample_state) =
    calls sample_state ++
    title_calls tab3
      (action_title (page_action_title_busy sample_messages)
         sample_state tab3) ∧
  has_timer 1 (show_all sample_messages [tab1; tab3] sample_state).
Proof.
  destruct (created_updated_startup sample_messages sample_state tab3 3
              [tab1; tab3] sample_state_reachable)
    as (_ & (Hupdated & _) & (_ & Hstartup)).
  split; [exact sample_state_reachable|].
  split; [exact Hupdated|].
  apply (Hstartup tab1). by left.
Defined.

Lemma theme_change_refreshes_all_tabs_witness :
  ext_type dark_theme = "theme" ∧
  ∃ b2,
    browses sample_messages sample_theme_change sample_browser = Some b2 ∧
    open_tabs b2 = open_tabs sample_browser ∧
    is_theme_dark (script b2) = true ∧
    calls (script b2) =
      [SetIcon pageAction 1 "data/reload_to_stop_dark.svg?t=0";
       SetIcon browserAction 1 "data/reload_to_stop_dark.svg?t=0";
       SetIcon pageAction 3 "data/stop_to_reload_dark.svg?t=0";
       SetIcon browserAction 3 "data/stop_to_reload_dark.svg?t=0"].
Proof.
  assert (ext_type dark_theme = "theme") as Htheme by done.
  destruct (theme_change_refreshes_all_tabs sample_messages dark_theme
              sample_browser Htheme)
    as ((b1 & b2 & Hstep1 & _ & _ & _ & _ & Hstep2 & Htabs & Hdark & Hcalls
         & _) & _ & _).
  split; [exact Htheme|]. exists b2.
  split.
  { cbn [browses sample_theme_change]. rewrite Hstep1.
    change (B_query_resolved 3)
      with (B_query_resolved (length (pending (script sample_browser)))).
    by rewrite Hstep2. }
  split; [exact Htabs|]. split; [exact Hdark|exact Hcalls].
Defined.

Lemma icon_path_purity_witness :
  is_loading tab1 = is_loading (mkTab 2 "complete") ∧
  icon_path false tab1 false 0 = icon_path false (mkTab 2 "complete") false 5 ∧
  (icon_path false tab1 true 0 = icon_path false (mkTab 2 "complete") true 5 ↔
   0 = 5).
Proof.
  assert (is_loading tab1 = is_loading (mkTab 2 "complete")) as Hload by done.
  split; [exact Hload|].
  exact (icon_path_purity false tab1 (mkTab 2 "complete") 0 5 Hload).
Defined.

Lemma detect_theme_without_enabled_theme_witness :
  Forall (λ ext, ¬ (ext_type ext = "theme" ∧ ext_enabled ext = true))
    [mkExt "addon@example.org" "extension" true] ∧
  detect_theme [mkExt "addon@example.org" "extension" true] (init 0) =
    Throw "TypeError: current_theme is undefined" (init 0).
Proof.
  assert (Forall (λ ext, ¬ (ext_type ext = "theme" ∧ ext_enabled ext = true))
            [mkExt "addon@example.org" "extension" true]) as Hnone.
  { constructor; [|constructor]. intros [Htype _]. discriminate Htype. }
  split; [exact Hnone|].
  exact (detect_theme_without_enabled_theme _ (init 0) Hnone).
Defined.

Lemma title_update_before_os_detection_witness :
  page_action_title_idle (init 0) = None ∧
  calls (update_page_action sample_messages tab1 (init 0)) =
    calls (init 0) ++
    [Show 1; SetTitle pageAction 1 None; SetTitle browserAction 1 None].
Proof.
  assert (page_action_title_idle (init 0) = None) as Hidle by done.
  destruct (title_update_before_os_detection sample_messages (init 0) tab1
              "linux" Hidle) as (Hcalls & _).
  split; [exact Hidle|exact Hcalls].
Defined.

(** C3, as stated, fails: for a loading tab the transition phase gives the
    [stop_to_reload] asset, where the specification reads the reload-to-stop
    clip. *)
Lemma transition_clip_counterexample :
  icon_path false tab3 true 0 = "data/stop_to_reload_light.svg?t=0" ∧
  spec_transition_asset false tab3 +:+ "?t=" +:+ pretty 0 =
    "data/reload_to_stop_light.svg?t=0" ∧
  icon_path false tab3 true 0 ≠
    spec_transition_asset false tab3 +:+ "?t=" +:+ pretty 0.
Proof. by vm_compute. Qed.

(** C5, as stated, fails twice: an [updated] notification sets no icon and
    schedules no timer, and the startup enumeration does start an animation
    for the tab it enumerates. *)
Lemma updated_and_startup_counterexample :
  (calls <$> step sample_messages (E_tabs_onUpdated 3 tab3) (init 0)) =
    Some [Show 3;
          SetTitle pageAction 3 (Some "page_action_busy_title:Esc");
          SetTitle browserAction 3 (Some "page_action_busy_title:Esc")] ∧
  (timers <$> step sample_messages (E_tabs_onUpdated 3 tab3) (init 0)) =
    Some [] ∧
  (calls <$> step sample_messages (E_resolve 2 (V_tabs [tab3])) (init 0)) =
    Some [Show 3;
          SetTitle pageAction 3 (Some "page_action_busy_title:Esc");
          SetTitle browserAction 3 (Some "page_action_busy_title:Esc");
          SetIcon pageAction 3 "data/stop_to_reload_light.svg?t=0";
          SetIcon browserAction 3 "data/stop_to_reload_light.svg?t=0"] ∧
  (timers <$> step sample_messages (E_resolve 2 (V_tabs [tab3])) (init 0)) =
    Some [mkTimer 1 tab3 417].
Proof. by vm_compute. Qed.

(** C7, as stated, fails: a tab is created and navigates within the same
    millisecond; the two animated icon updates are two invocations with the
    same load state and theme, and they give the same path, marker
    included.  So do two animated updates that follow each other directly,
    as in the loop over all tabs: they are distinct invocations (the second
    finds the timer of the first), and the path is the same. *)
Lemma same_marker_counterexample :
  (calls <$>
   run sample_messages
     [E_tabs_onCreated tab1; E_webNavigation (mkDetails 1 0 0);
      E_resolve 3 (V_tab tab1)] (init 0)) =
  Some [Show 1; SetTitle pageAction 1 None; SetTitle browserAction 1 None;
        SetIcon pageAction 1 "data/reload_to_stop_light.svg?t=0";
        SetIcon browserAction 1 "data/reload_to_stop_light.svg?t=0";
        Show 1; SetTitle pageAction 1 None; SetTitle browserAction 1 None;
        SetIcon pageAction 1 "data/reload_to_stop_light.svg?t=0";
        SetIcon browserAction 1 "data/reload_to_stop_light.svg?t=0"] ∧
  update_page_action_icon tab1 true (init 0) ≠
    update_page_action_icon tab1 true
      (update_page_action_icon tab1 true (init 0)) ∧
  icon_path false tab1 true (clock (init 0)) =
    icon_path false tab1 true
      (clock (update_page_action_icon tab1 true (init 0))).
Proof. by vm_compute. Qed.

(** C9, as stated, fails: before the platform is known, an [updated]
    notification for a tab that is not loading sets the undefined idle title
    on both surfaces; the update is not skipped and nothing is deferred. *)
Lemma undefined_title_counterexample :
  page_action_title_idle (init 0) = None ∧
  P_getPlatformInfo ∈ pending (init 0) ∧
  (calls <$> step sample_messages (E_tabs_onUpdated 1 tab1) (init 0)) =
    Some [Show 1; SetTitle pageAction 1 None; SetTitle browserAction 1 None] ∧
  (pending <$> step sample_messages (E_tabs_onUpdated 1 tab1) (init 0)) =
    Some (pending (init 0)).
Proof.
  split; [done|]. split; [by right; left|]. by vm_compute.
Qed.

(** * Further properties of the script *)

(** ** What a step adds to the call log *)

Section Growth.

Variable getMessage : string → string → string.
Variable Q : list Call → Prop.

Hypothesis Q_nil : Q [].
Hypothesis Q_app : ∀ l l', Q l → Q l' → Q (l ++ l').
Hypothesis Q_icon : ∀ dark tab b now, Q (icon_calls tab (icon_path dark tab b now)).
Hypothesis Q_title : ∀ tab title, Q (title_calls tab title).
Hypothesis Q_script : ∀ code, Q [ExecuteScript code].
Hypothesis Q_reload : Q [Reload].

Implicit Types (st : State) (tab : Tab).

Lemma grows_quiet st st' : calls st' = calls st → grows_by Q st st'.
Proof. intros Hc. exists []. by rewrite app_nil_r. Qed.

Lemma grows_trans st1 st2 st3 :
  grows_by Q st1 st2 → grows_by Q st2 st3 → grows_by Q st1 st3.
Proof.
  intros (new1 & Hc1 & H1) (new2 & Hc2 & H2). exists (new1 ++ new2).
  split; [by rewrite Hc2, Hc1, app_assoc|by apply Q_app].
Qed.

Lemma grows_upai tab b st : grows_by Q st (update_page_action_icon tab b st).
Proof. eexists. split; [apply upai_calls|apply Q_icon]. Qed.

Lemma grows_update_page_action tab st :
  grows_by Q st (update_page_action getMessage tab st).
Proof. eexists. split; [apply update_page_action_calls|apply Q_title]. Qed.

Lemma grows_on_created tab st : grows_by Q st (on_created getMessage tab st).
Proof.
  eapply grows_trans; [apply grows_update_page_action|apply grows_upai].
Qed.

Lemma grows_show_all tabs st : grows_by Q st (show_all getMessage tabs st).
Proof.
  unfold show_all. revert st.
  induction tabs as [|tab tabs IH]; intros st; [by apply grows_quiet|].
  cbn. eapply grows_trans; [apply grows_on_created|apply IH].
Qed.

Lemma grows_update_all tabs st :
  grows_by Q st (update_all_page_action_icons_then tabs st).
Proof.
  unfold update_all_page_action_icons_then. revert st.
  induction tabs as [|tab tabs IH]; intros st; [by apply grows_quiet|].
  cbn. eapply grows_trans; [apply grows_upai|apply IH].
Qed.

Lemma grows_on_navigation_then details tab st :
  grows_by Q st (on_navigation_then getMessage details tab st).
Proof.
  unfold on_navigation_then.
  eapply grows_trans; [|by apply grows_quiet].
  eapply grows_trans; [apply grows_update_page_action|apply grows_upai].
Qed.

Lemma grows_resume p v st st' :
  resume getMessage p v st = Some st' → grows_by Q st st'.
Proof.
  destruct p, v; cbn; intros [= <-].
  - unfold detect_theme. destruct (head _); by apply grows_quiet.
  - by apply grows_quiet.
  - apply grows_show_all.
  - apply grows_update_all.
  - apply grows_on_navigation_then.
Qed.

Lemma grows_step ev st st' :
  step getMessage ev st = Some st' → grows_by Q st st'.
Proof.
  destruct ev; cbn.
  - destruct (pending st !! n) as [p|]; [|done]. intros Hr.
    eapply grows_trans; [|eapply grows_resume; exact Hr]. by apply grows_quiet.
  - destruct (pending st !! n); [|done]. intros [= <-]. by apply grows_quiet.
  - intros [= <-]. unfold on_enabled. case_bool_decide; by apply grows_quiet.
  - intros [= <-]. apply grows_on_created.
  - intros [= <-]. apply grows_update_page_action.
  - intros [= <-]. unfold on_navigation.
    case_bool_decide; by apply grows_quiet.
  - intros [= <-]. unfold on_action_clicked.
    destruct (is_loading tab); eexists; (split; [reflexivity|]);
      [apply Q_script|apply Q_reload].
  - destruct (list_find _ _) as [[i tm]|]; [|done].
    case_bool_decide; [|done]. intros [= <-]. unfold timeout_callback.
    eapply grows_trans; [|by apply grows_quiet].
    eapply grows_trans; [|apply grows_upai]. by apply grows_quiet.
  - case_bool_decide; [|done]. intros [= <-]. by apply grows_quiet.
Qed.

Lemma grows_run evs st st' :
  run getMessage evs st = Some st' → grows_by Q st st'.
Proof.
  revert st. induction evs as [|ev evs IH]; intros st; cbn.
  - intros [= <-]. by apply grows_quiet.
  - destruct (step getMessage ev st) as [st1|] eqn:Hstep; [|done].
    intros Hrun. eapply grows_trans; [by eapply grows_step|by apply IH].
Qed.

Lemma reachable_log st : reachable getMessage st → Q (calls st).
Proof.
  intros (t0 & evs & Hrun).
  destruct (grows_run evs _ _ Hrun) as (new & Hcalls & Hnew).
  by rewrite Hcalls.
Qed.

End Growth.

(** ** The two surfaces *)

Section Mirror.

Implicit Types (l : list Call) (t : Z).

Lemma last_set_app {A} (f : Call → option A) l l' :
  last_set f (l ++ l') =
  match last_set f l' with Some a => Some a | None => last_set f l end.
Proof.
  induction l as [|c l IH]; cbn.
  - by destruct (last_set f l').
  - rewrite IH. by destruct (last_set f l').
Qed.

Lemma mirrored_nil : mirrored [].
Proof. by intros t. Qed.

Lemma mirrored_app l l' : mirrored l → mirrored l' → mirrored (l ++ l').
Proof.
  intros Hl Hl' t. destruct (Hl t) as [Hi Ht], (Hl' t) as [Hi' Ht'].
  unfold shown_icon, shown_title in *. rewrite !last_set_app.
  rewrite Hi', Ht', Hi, Ht. done.
Qed.

Lemma mirrored_icon_calls tab path : mirrored (icon_calls tab path).
Proof.
  intros t. unfold shown_icon, shown_title, icon_calls. cbn.
  repeat case_decide; try done; exfalso; intuition congruence.
Qed.

Lemma mirrored_title_calls tab title : mirrored (title_calls tab title).
Proof.
  intros t. unfold shown_icon, shown_title, title_calls. cbn.
  repeat case_decide; try done; exfalso; intuition congruence.
Qed.

(** X1.  In every state the script can reach, the page action and the
    browser action of every tab show the same icon and the same title: the
    latest icon set on the one is the latest set on the other, and so for
    the title. *)
Theorem surfaces_mirrored getMessage st :
  reachable getMessage st → mirrored (calls st).
Proof.
  apply reachable_log.
  - apply mirrored_nil.
  - apply mirrored_app.
  - intros. apply mirrored_icon_calls.
  - apply mirrored_title_calls.
  - by intros code t.
  - by intros t.
Qed.

End Mirror.

(** ** Icon files *)

Section Assets.

Lemma icon_path_asset dark tab b now : asset_path (icon_path dark tab b now).
Proof.
  unfold icon_path, asset_path, still_assets, clip_assets.
  destruct b, dark, (is_loading tab);
    ((left; set_solver) ||
     (right; eexists _, now; split; [|reflexivity]; set_solver)).
Qed.

(** X2.  Every icon path the script ever hands to [setIcon] names one of
    the four still icons, or one of the four clips followed by a [?t=]
    marker. *)
Theorem icons_are_assets getMessage st s t path :
  reachable getMessage st → SetIcon s t path ∈ calls st → asset_path path.
Proof.
  intros Hreach Hin.
  assert (Forall sets_asset (calls st)) as Hall.
  { apply (reachable_log getMessage (Forall sets_asset)); [..|done].
    - constructor.
    - intros l l' Hl Hl'. by apply Forall_app.
    - intros dark tab b now. unfold icon_calls.
      rewrite !Forall_cons, Forall_nil. cbn.
      repeat split; apply icon_path_asset.
    - intros tab title. unfold title_calls.
      by rewrite !Forall_cons, Forall_nil.
    - intros code. by rewrite !Forall_cons, Forall_nil.
    - by rewrite !Forall_cons, Forall_nil. }
  rewrite Forall_forall in Hall. exact (Hall _ Hin).
Qed.

End Assets.

(** ** The flag, the titles, the timestamps and the promises *)

Section Frame.

Variable getMessage : string → string → string.

Implicit Types (st : State) (tab : Tab) (ev : Event).

Lemma frame_is_same st : 
  frame_is (is_theme_dark st) (page_action_title_idle st)
    (navigation_timestamp st) (clock st) (pending st) st.
Proof. by repeat split. Qed.

Lemma frame_is_upai dark idle nav clk pend tab b st :
  frame_is dark idle nav clk pend st →
  frame_is dark idle nav clk pend (update_page_action_icon tab b st).
Proof.
  intros (H1 & H2 & H3 & H4 & H5).
  destruct (upai_frame tab b st) as (F1 & F2 & F3 & F4 & F5).
  repeat split; congruence.
Qed.

Lemma frame_is_on_created dark idle nav clk pend tab st :
  frame_is dark idle nav clk pend st →
  frame_is dark idle nav clk pend (on_created getMessage tab st).
Proof. intros H. by apply frame_is_upai. Qed.

Lemma frame_is_show_all dark idle nav clk pend tabs st :
  frame_is dark idle nav clk pend st →
  frame_is dark idle nav clk pend (show_all getMessage tabs st).
Proof.
  unfold show_all. revert st.
  induction tabs as [|tab tabs IH]; intros st H; [done|].
  cbn. by apply IH, frame_is_on_created.
Qed.

Lemma frame_is_update_all dark idle nav clk pend tabs st :
  frame_is dark idle nav clk pend st →
  frame_is dark idle nav clk pend (update_all_page_action_icons_then tabs st).
Proof.
  unfold update_all_page_action_icons_then. revert st.
  induction tabs as [|tab tabs IH]; intros st H; [done|].
  cbn. by apply IH, frame_is_upai.
Qed.

Lemma step_frame_change ev st st' :
  step getMessage ev st = Some st' → frame_change getMessage ev st st'.
Proof.
  destruct ev; cbn.
  - destruct (pending st !! n) as [p|] eqn:Hn; [|done].
    destruct p, v; cbn; intros [= <-].
    + unfold detect_theme.
      destruct (head _) as [theme|] eqn:Hhead.
      * apply head_Some_elem_of, list_elem_of_filter in Hhead
          as [[Htype _] Hin].
        by eapply fc_detect.
      * by apply fc_detect_throw.
    + by apply fc_platform.
    + eapply fc_tabs; [done|eexists; by left|]. by apply frame_is_show_all.
    + eapply fc_tabs; [done|eexists; by right|].
      by apply frame_is_update_all.
    + eapply fc_tab; [done|]. unfold on_navigation_then.
      destruct (upai_frame tab (should_animate details
                  (set_pending (delete n (pending st)) st))
                  (update_page_action getMessage tab
                     (set_pending (delete n (pending st)) st)))
        as (F1 & F2 & F3 & F4 & F5).
      unfold frame_is. cbn [is_theme_dark page_action_title_idle
        navigation_timestamp clock pending set_navigation_timestamp].
      rewrite F1, F2, F3, F4, F5. done.
  - destruct (pending st !! n) as [p|] eqn:Hn; [|done].
    intros [= <-]. by eapply fc_reject.
  - intros [= <-]. unfold on_enabled. case_bool_decide.
    + by apply fc_theme.
    + apply fc_same, frame_is_same.
  - intros [= <-]. apply fc_same, frame_is_on_created, frame_is_same.
  - intros [= <-]. by apply fc_same.
  - intros [= <-]. unfold on_navigation. case_bool_decide as Hframe.
    + apply fc_same, frame_is_same.
    + apply fc_navigation; [|done].
      destruct (decide (frameId details = 0)); [done|]. by destruct Hframe.
  - intros [= <-]. apply fc_same. unfold on_action_clicked.
    by destruct (is_loading tab).
  - destruct (list_find _ _) as [[i tm]|]; [|done].
    case_bool_decide; [|done]. intros [= <-]. apply fc_same.
    unfold timeout_callback.
    destruct (upai_frame (timer_tab tm) false (clearTimeout id st))
      as (F1 & F2 & F3 & F4 & F5).
    unfold frame_is. cbn [is_theme_dark page_action_title_idle
      navigation_timestamp clock pending set_animation_timeouts].
    rewrite F1, F2, F3, F4, F5. done.
  - case_bool_decide as Hms; [|done]. intros [= <-]. by apply fc_tick.
Qed.

End Frame.

Section FrameProperties.

Variable getMessage : string → string → string.

Implicit Types (st : State) (tab : Tab) (ev : Event) (l : list Pending).

Lemma run_app evs1 evs2 st :
  run getMessage (evs1 ++ evs2) st =
  match run getMessage evs1 st with
  | Some st1 => run getMessage evs2 st1
  | None => None
  end.
Proof.
  revert st. induction evs1 as [|ev evs1 IH]; intros st; [done|].
  cbn. by destruct (step getMessage ev st).
Qed.

Lemma pending_top_level_step ev st st' :
  step getMessage ev st = Some st' →
  pending_top_level st → pending_top_level st'.
Proof.
  intros Hstep Htop details.
  destruct (step_frame_change getMessage ev st st' Hstep)
    as [? ? ? (_ & _ & _ & _ & ->)
       |? ? ? ? (_ & _ & _ & _ & ->)
       |d ? ? Hframe (_ & _ & _ & _ & ->)
       |? ? ? ? (_ & _ & _ & _ & ->)
       |? ? ? ? ? (_ & _ & _ & _ & ->)
       |? ? ? ? ? (_ & _ & _ & _ & ->)
       |? ? ? ? ? ? ? ? (_ & _ & _ & _ & ->)
       |? ? ? ? ? (_ & _ & _ & _ & ->)
       |? ? ? ? ? ? ? (_ & _ & _ & _ & ->)
       |? ? ? ? ? ? (_ & _ & _ & _ & ->)];
    rewrite ?elem_of_app, ?list_elem_of_singleton;
    try (intros [Hin|Heq]; [|by simplify_eq]);
    try intros Hin;
    try apply list_elem_of_delete_inv in Hin;
    by apply Htop.
Qed.

Lemma reachable_pending_top_level st :
  reachable getMessage st → pending_top_level st.
Proof.
  intros (t0 & evs & Hrun).
  assert (pending_top_level (init t0)) as Hinit.
  { intros details. cbn. rewrite !elem_of_cons.
    intros [?|[?|[?|?%not_elem_of_nil]]]; done. }
  revert Hrun Hinit. generalize (init t0). clear t0.
  induction evs as [|ev evs IH]; intros st0; cbn.
  - by intros [= <-].
  - destruct (step getMessage ev st0) as [st1|] eqn:Hstep; [|done].
    intros Hrun Htop. eapply IH; [exact Hrun|].
    by eapply pending_top_level_step.
Qed.

(** X3.  In one turn of the event loop from a state the script can reach,
    the timestamp recorded for a tab changes only when the callback of a
    [tabs.get] runs that a top-level navigation of that tab asked for, and it
    then becomes the timestamp of that navigation.  No turn removes a
    recorded timestamp. *)
Theorem timestamp_changes_only_by_navigation ev st st' t :
  reachable getMessage st →
  step getMessage ev st = Some st' →
  (navigation_timestamp st' !! t = navigation_timestamp st !! t ∨
   ∃ n details tab,
     ev = E_resolve n (V_tab tab) ∧
     pending st !! n = Some (P_tabs_get details) ∧
     frameId details = 0 ∧ tabId details = t ∧
     navigation_timestamp st' !! t = Some (timeStamp details)) ∧
  (is_Some (navigation_timestamp st !! t) →
   is_Some (navigation_timestamp st' !! t)).
Proof.
  intros Hreach Hstep.
  pose proof (reachable_pending_top_level st Hreach) as Htop.
  destruct (step_frame_change getMessage ev st st' Hstep)
    as [? ? ? (_ & _ & -> & _)
       |? ? ? ? (_ & _ & -> & _)
       |? ? ? ? (_ & _ & -> & _)
       |? ? ? ? (_ & _ & -> & _)
       |? ? ? ? ? (_ & _ & -> & _)
       |? ? ? ? ? (_ & _ & -> & _)
       |? ? ? ? ? ? ? ? (_ & _ & -> & _)
       |? ? ? ? ? (_ & _ & -> & _)
       |? ? ? ? ? ? ? (_ & _ & -> & _)
       |n details tab ? ? Hn (_ & _ & -> & _)];
    try (split; [by left|done]).
  destruct (decide (tabId details = t)) as [<-|Hne].
  - rewrite lookup_insert_eq. split; [|by eexists].
    right. exists n, details, tab. repeat split; try done.
    apply Htop. by eapply list_elem_of_lookup_2.
  - rewrite lookup_insert_ne by done. split; [by left|done].
Qed.

(** X4.  A navigation of a sub-frame is invisible: leaving it out of a
    sequence of events changes nothing in the state the sequence ends in. *)
Theorem subframe_navigation_invisible evs1 evs2 details st :
  frameId details ≠ 0 →
  run getMessage (evs1 ++ E_webNavigation details :: evs2) st =
  run getMessage (evs1 ++ evs2) st.
Proof.
  intros Hframe. rewrite !run_app.
  destruct (run getMessage evs1 st) as [st1|]; [|done].
  cbn. unfold on_navigation. by rewrite bool_decide_eq_true_2.
Qed.

(** X5.  A turn of the event loop that changes the theme flag is a theme
    being enabled or the startup list of extensions arriving, and it leaves
    the query for all tabs as the newest pending promise: the flag never
    changes without an icon refresh being under way. *)
Theorem flag_change_requests_refresh ev st st' :
  step getMessage ev st = Some st' →
  is_theme_dark st' ≠ is_theme_dark st →
  last (pending st') = Some (P_tabs_query_icons query_all) ∧
  ((∃ info, ev = E_management_onEnabled info ∧ ext_type info = "theme" ∧
            is_theme_dark st' = includes dark_theme_ids (ext_id info)) ∨
   (∃ n extensions theme,
      ev = E_resolve n (V_extensions extensions) ∧
      pending st !! n = Some P_management_getAll ∧
      theme ∈ extensions ∧ ext_type theme = "theme" ∧
      is_theme_dark st' = includes dark_theme_ids (ext_id theme))).
Proof.
  intros Hstep Hchange.
  destruct (step_frame_change getMessage ev st st' Hstep)
    as [? ? ? (Hd & _)
       |? ? ? ? (Hd & _)
       |? ? ? ? (Hd & _)
       |info ? ? Htheme (Hd & _ & _ & _ & Hp)
       |? ? ? ? ? (Hd & _)
       |? ? ? ? ? (Hd & _)
       |n extensions theme ? ? Hn Hin Htheme (Hd & _ & _ & _ & Hp)
       |? ? ? ? ? (Hd & _)
       |? ? ? ? ? ? ? (Hd & _)
       |? ? ? ? ? ? (Hd & _)];
    try done.
  - split; [by rewrite Hp, last_snoc|]. left. by exists info.
  - split; [by rewrite Hp, last_snoc|]. right. by exists n, extensions, theme.
Qed.

End FrameProperties.

(** ** The idle title *)

Section IdleTitle.

Variable getMessage : string → string → string.

Implicit Types (st : State) (ev : Event) (l : list Pending).

Local Abbreviation awaited l :=
  (length (filter (λ p, p = P_getPlatformInfo) l)).

Lemma awaited_snoc l p : p ≠ P_getPlatformInfo → awaited (l ++ [p]) = awaited l.
Proof.
  intros Hne. rewrite filter_app, length_app.
  rewrite filter_cons_False by done. cbn. lia.
Qed.

Lemma awaited_delete l n p :
  l !! n = Some p →
  (awaited (delete n l) +
   (if decide (p = P_getPlatformInfo) then 1 else 0) = awaited l)%nat.
Proof.
  revert n. induction l as [|q l IH]; intros n Hn; [done|].
  destruct n as [|n]; cbn in Hn.
  - injection Hn as ->. change (delete 0%nat (p :: l)) with l.
    rewrite filter_cons.
    destruct (decide (p = P_getPlatformInfo)); cbn [length]; lia.
  - change (delete (S n) (q :: l)) with (q :: delete n l).
    rewrite !filter_cons. specialize (IH n Hn).
    destruct (decide (q = P_getPlatformInfo)),
      (decide (p = P_getPlatformInfo)); cbn [length]; lia.
Qed.

Lemma idle_title_inv_step ev st st' :
  step getMessage ev st = Some st' →
  idle_title_inv getMessage st →
  idle_title_inv getMessage st' ∧
  ∀ s, page_action_title_idle st = Some s →
       page_action_title_idle st' = Some s.
Proof.
  intros Hstep [Hone Hset]. unfold idle_title_inv, platform_pending in *.
  destruct (step_frame_change getMessage ev st st' Hstep)
    as [? ? ? (_ & -> & _ & _ & ->)
       |? ? ? ? (_ & -> & _ & _ & ->)
       |? ? ? ? (_ & -> & _ & _ & ->)
       |? ? ? ? (_ & -> & _ & _ & ->)
       |n p ? ? Hn (_ & -> & _ & _ & ->)
       |n ? ? ? Hn (_ & -> & _ & _ & ->)
       |n ? ? ? ? Hn ? ? (_ & -> & _ & _ & ->)
       |n os ? ? Hn (_ & -> & _ & _ & ->)
       |n p ? ? ? Hn ? (_ & -> & _ & _ & ->)
       |n ? ? ? ? Hn (_ & -> & _ & _ & ->)];
    rewrite ?awaited_snoc by done;
    try (pose proof (awaited_delete _ _ _ Hn) as Hdel;
         destruct (decide (_ = P_getPlatformInfo)) in Hdel; try done);
    try (split; [|done]; split; [lia|];
         intros s Hs; destruct (Hset s Hs) as [Hzero Hos];
         split; [lia|done]).
  split; [split; [lia|]|].
  - intros s Hs. injection Hs as <-. split; [lia|by exists os].
  - intros s Hs. destruct (Hset s Hs) as [Hzero _]. lia.
Qed.

Lemma idle_title_inv_run evs st st' :
  run getMessage evs st = Some st' →
  idle_title_inv getMessage st →
  idle_title_inv getMessage st' ∧
  ∀ s, page_action_title_idle st = Some s →
       page_action_title_idle st' = Some s.
Proof.
  revert st. induction evs as [|ev evs IH]; intros st; cbn.
  - by intros [= <-].
  - destruct (step getMessage ev st) as [st1|] eqn:Hstep; [|done].
    intros Hrun HI.
    destruct (idle_title_inv_step ev st st1 Hstep HI) as [HI1 Hkeep1].
    destruct (IH st1 Hrun HI1) as [HI' Hkeep']. split; [done|].
    intros s Hs. by apply Hkeep', Hkeep1.
Qed.

(** X6.  The idle title is set once and for all: in a state the script can
    reach, a title that is set is the message [page_action_idle_title] with
    [⌘+R] (platform [mac]) or [Ctrl+R] (any other platform), no platform
    promise is pending any more, and whatever happens afterwards the title
    stays the same. *)
Theorem idle_title_set_once st s :
  reachable getMessage st →
  page_action_title_idle st = Some s →
  (∃ os, s = getMessage "page_action_idle_title"
               ((if bool_decide (os = "mac") then "⌘" else "Ctrl") +:+ "+R")) ∧
  (P_getPlatformInfo ∉ pending st) ∧
  ∀ evs st', run getMessage evs st = Some st' →
             page_action_title_idle st' = Some s.
Proof.
  intros (t0 & evs0 & Hrun0) Hs.
  assert (idle_title_inv getMessage (init t0)) as Hinit.
  { split; [|by intros s'].
    assert (platform_pending (init t0) = 1%nat) as -> by reflexivity. lia. }
  destruct (idle_title_inv_run evs0 _ _ Hrun0 Hinit) as [HI _].
  destruct (proj2 HI s Hs) as [H0 Hos]. split; [exact Hos|]. split.
  - intros Hin. unfold platform_pending in H0.
    apply length_zero_iff_nil in H0.
    eapply (filter_nil_not_elem_of _ _ _ H0); [|exact Hin]. done.
  - intros evs st' Hrun.
    by apply (proj2 (idle_title_inv_run evs st st' Hrun HI)).
Qed.

End IdleTitle.

(** ** The startup detection and the theme listener *)

Section FirstTheme.

(** X7.  The startup detection acts on the first enabled theme of the list,
    wherever it stands, and does for it what the theme listener does when
    that theme is enabled: the same flag, the same request for all tabs. *)
Theorem detect_theme_first_enabled before theme after st :
  Forall (λ ext, ¬ (ext_type ext = "theme" ∧ ext_enabled ext = true)) before →
  ext_type theme = "theme" →
  ext_enabled theme = true →
  detect_theme (before ++ theme :: after) st = Normal (on_enabled theme st).
Proof.
  intros Hbefore Htype Henabled. unfold detect_theme, on_enabled.
  rewrite filter_app, filter_none, filter_cons_True by
    (done || (intros ext Hin; rewrite Forall_forall in Hbefore;
              by apply Hbefore)).
  cbn. by rewrite bool_decide_eq_true_2.
Qed.

End FirstTheme.

(** ** Timers of one tab and of the others *)

Section Isolation.

Variable getMessage : string → string → string.

Implicit Types (st : State) (tab : Tab) (tm : Timer).

Lemma singleton_of_at_most_one {A} (l : list A) x :
  (length l ≤ 1)%nat → x ∈ l → l = [x].
Proof.
  destruct l as [|y [|z l]]; cbn; intros Hlen Hin.
  - by apply not_elem_of_nil in Hin.
  - by apply list_elem_of_singleton in Hin as ->.
  - lia.
Qed.

(** X8.  An icon update for one tab leaves every other tab alone: the
    settle timers of another tab and its entry in the timer map are what
    they were, whether the update animates or not. *)
Theorem icon_update_leaves_other_tabs st tab b t :
  reachable getMessage st →
  tab_id tab ≠ t →
  live_timers t (update_page_action_icon tab b st) = live_timers t st ∧
  animation_timeouts (update_page_action_icon tab b st) !! t =
    animation_timeouts st !! t.
Proof.
  intros Hreach Hne. pose proof (Inv_reachable getMessage st Hreach) as HI.
  split.
  - unfold live_timers.
    rewrite upai_timers, cancelled_by_tab, filter_app by done.
    rewrite list_filter_filter.
    assert (filter (λ tm, tab_id (timer_tab tm) = t)
              (if b then [mkTimer (next_timeout_id st) tab (clock st + 417)]
               else []) = []) as ->.
    { destruct b; [|done]. by rewrite filter_cons_False. }
    rewrite app_nil_r. apply filter_ext_elem. intros tm _.
    split; [tauto|]. intros <-. split; [done|congruence].
  - rewrite upai_animation_timeouts. destruct b; [|done].
    by rewrite lookup_insert_ne.
Qed.

(** X9.  An animation that runs to its end leaves no trace in the timer
    table or the timer map.  When an animated icon update for a tab is
    followed by 417 ms in which nothing else happens and then by its timer
    firing, the log has gained the clip and then the still icon, both for
    the load state of the tab object, the table holds the timers of the
    other tabs as before, and the map has lost the entry of the tab; for a
    tab that had no entry, table and map are exactly what they were. *)
Theorem animation_runs_to_its_end st tab st' :
  reachable getMessage st →
  run getMessage [E_tick 417; E_timeout (next_timeout_id st)]
    (update_page_action_icon tab true st) = Some st' →
  calls st' =
    calls st ++
    icon_calls tab (icon_path (is_theme_dark st) tab true (clock st)) ++
    icon_calls tab (icon_path (is_theme_dark st) tab false (clock st + 417)) ∧
  timers st' =
    filter (λ tm, tab_id (timer_tab tm) ≠ tab_id tab) (timers st) ∧
  animation_timeouts st' = delete (tab_id tab) (animation_timeouts st) ∧
  (animation_timeouts st !! tab_id tab = None →
   timers st' = timers st ∧ animation_timeouts st' = animation_timeouts st).
Proof.
  intros Hreach. pose proof (Inv_reachable getMessage st Hreach) as HI.
  set (st1 := update_page_action_icon tab true st).
  assert (Inv st1) as HI1 by by apply Inv_update_page_action_icon.
  cbn [run]. cbn [step]. case_bool_decide as Hms; [|done].
  set (st2 := set_clock (clock st1 + 417) st1).
  assert (Inv st2) as HI2 by by apply Inv_tick.
  set (tm := mkTimer (next_timeout_id st) tab (clock st + 417)).
  assert (tm ∈ timers st2) as Htm.
  { subst st2 st1. cbn [timers set_clock]. rewrite upai_timers.
    apply elem_of_app. right. by left. }
  destruct (find_pending_timer st2 tm HI2 Htm) as [i Hfind].
  cbn [timer_id tm] in Hfind. rewrite Hfind.
  destruct (upai_frame tab true st) as (Hd & _ & _ & Hc & _).
  fold st1 in Hd, Hc.
  rewrite bool_decide_eq_true_2
    by (subst st2 tm; cbn [clock set_clock timer_due]; lia).
  intros [= <-]. cbn [timer_tab tm].
  pose proof (Inv_clearTimeout (next_timeout_id st) st2 HI2) as HI3.
  assert (timers (timeout_callback tab
            (clearTimeout (next_timeout_id st) st2)) =
          filter (λ tm, tab_id (timer_tab tm) ≠ tab_id tab) (timers st))
    as Htimers.
  { unfold timeout_callback. cbn [timers set_animation_timeouts].
    rewrite upai_timers, app_nil_r, cancelled_by_tab by done.
    cbn [timers clearTimeout set_timers]. subst st2 st1.
    cbn [timers set_clock]. rewrite upai_timers, cancelled_by_tab by done.
    rewrite filter_app, filter_cons_False, filter_nil, app_nil_r
      by (cbn; tauto).
    rewrite !list_filter_filter. apply filter_ext_elem. intros tm' Hin.
    split; [tauto|]. intros Hne. repeat split; try done.
    pose proof (inv_fresh st HI tm' Hin). lia. }
  assert (animation_timeouts (timeout_callback tab
            (clearTimeout (next_timeout_id st) st2)) =
          delete (tab_id tab) (animation_timeouts st)) as Hmap.
  { unfold timeout_callback. cbn [animation_timeouts set_animation_timeouts].
    rewrite upai_animation_timeouts. subst st2 st1.
    cbn [animation_timeouts clearTimeout set_timers set_clock].
    by rewrite upai_animation_timeouts, delete_insert_eq. }
  split; [|split; [done|split; [done|]]].
  - unfold timeout_callback. cbn [calls set_animation_timeouts].
    rewrite upai_calls. subst st2.
    cbn [calls clearTimeout set_timers set_clock is_theme_dark clock].
    rewrite Hd, Hc. subst st1. by rewrite upai_calls, <- app_assoc.
  - intros Hnone. rewrite Htimers, Hmap. split.
    + apply filter_all. intros tm' Hin Heq.
      pose proof (inv_entry st HI tm' Hin) as He. rewrite Heq in He.
      congruence.
    + by apply delete_id.
Qed.

(** X10.  A navigation that comes less than 417 ms after the one recorded
    for its tab settles the icon at once: the title is set, both surfaces get
    the still icon, the timer of the tab is cleared and none is scheduled, so
    no settle timer of the tab is pending afterwards. *)
Theorem debounced_navigation_settles details tab last st :
  reachable getMessage st →
  tab_id tab = tabId details →
  navigation_timestamp st !! tabId details = Some last →
  timeStamp details - last < 417 →
  let st' := on_navigation_then getMessage details tab st in
  calls st' =
    calls st ++
    title_calls tab
      (action_title (page_action_title_busy getMessage) st tab) ++
    icon_calls tab (icon_path (is_theme_dark st) tab false (clock st)) ∧
  live_timers (tabId details) st' = [] ∧
  next_timeout_id st' = next_timeout_id st.
Proof.
  intros Hreach Htab Hlast Hdiff st'.
  pose proof (Inv_reachable getMessage st Hreach) as HI.
  assert (should_animate details st = false) as Hno.
  { rewrite (should_animate_next details last) by done.
    apply bool_decide_eq_false_2. lia. }
  subst st'. split; [|split].
  - by rewrite on_navigation_then_calls, Hno.
  - unfold on_navigation_then, live_timers.
    cbn [timers set_navigation_timestamp]. rewrite Hno, <- Htab.
    apply (live_after_still tab). by apply Inv_update_page_action.
  - unfold on_navigation_then.
    cbn [next_timeout_id set_navigation_timestamp].
    by rewrite Hno, upai_next_timeout_id.
Qed.

Lemma fresh_timer_upai_animated tab st :
  fresh_timer (tab_id tab) (clock st) (update_page_action_icon tab true st).
Proof.
  exists (mkTimer (next_timeout_id st) tab (clock st + 417)).
  split; [|done]. rewrite upai_timers. apply elem_of_app. right. by left.
Qed.

Lemma fresh_timer_upai_other t c tab b st :
  Inv st → tab_id tab ≠ t → fresh_timer t c st →
  fresh_timer t c (update_page_action_icon tab b st).
Proof.
  intros HI Hne (tm & Htm & Ht & Hdue). exists tm. split; [|done].
  rewrite upai_timers, cancelled_by_tab by done.
  apply elem_of_app. left. apply list_elem_of_filter. split; [congruence|done].
Qed.

Lemma fresh_timer_update_all t c tabs st :
  Inv st → clock st = c →
  t ∈ tab_id <$> tabs ∨ fresh_timer t c st →
  fresh_timer t c (update_all_page_action_icons_then tabs st).
Proof.
  unfold update_all_page_action_icons_then. revert st.
  induction tabs as [|tab tabs IH]; intros st HI Hclock Hcase.
  - destruct Hcase as [Hin|Hhas]; [by apply not_elem_of_nil in Hin|done].
  - cbn [foldl]. apply IH; [by apply Inv_update_page_action_icon| |].
    { by destruct (upai_frame tab true st) as (_ & _ & _ & -> & _). }
    destruct (decide (t ∈ tab_id <$> tabs)) as [|Hnotin]; [by left|right].
    destruct (decide (tab_id tab = t)) as [<-|Hne].
    + rewrite <- Hclock. apply fresh_timer_upai_animated.
    + apply fresh_timer_upai_other; [done..|].
      destruct Hcase as [Hin|Hhas]; [|done].
      rewrite fmap_cons in Hin. apply elem_of_cons in Hin as [?|?]; done.
Qed.

(** X11.  When the query of an icon refresh resolves, every tab of the list
    ends up with exactly one pending settle timer, due 417 ms after the
    refresh, also when the tab had a timer before or is listed twice. *)
Theorem refresh_restarts_every_animation st tabs tab :
  reachable getMessage st →
  tab ∈ tabs →
  ∃ tm,
    live_timers (tab_id tab) (update_all_page_action_icons_then tabs st) =
      [tm] ∧
    timer_due tm = clock st + 417.
Proof.
  intros Hreach Hin. pose proof (Inv_reachable getMessage st Hreach) as HI.
  destruct (fresh_timer_update_all (tab_id tab) (clock st) tabs st HI eq_refl)
    as (tm & Htm & Ht & Hdue).
  { left. by apply list_elem_of_fmap_2. }
  exists tm. split; [|done].
  apply singleton_of_at_most_one.
  - by apply Inv_at_most_one, Inv_update_all_page_action_icons_then.
  - unfold live_timers. by apply list_elem_of_filter.
Qed.

End Isolation.

(** ** Clicks, commands and menus *)

Section ActionCounts.

Import Actions.

Variable extension_name : string.

Implicit Types (w : World) (i : Input) (inputs : list Input).

Lemma count_snoc {A} (P : A → Prop) `{∀ x, Decision (P x)} (l : list A) x :
  length (filter P (l ++ [x])) =
  (length (filter P l) + (if decide (P x) then 1 else 0))%nat.
Proof.
  rewrite filter_app, length_app, filter_cons.
  by destruct (decide (P x)).
Qed.

Lemma count_delete {A} (P : A → Prop) `{∀ x, Decision (P x)}
    (l : list A) n x :
  l !! n = Some x →
  (length (filter P (delete n l)) + (if decide (P x) then 1 else 0))%nat =
  length (filter P l).
Proof.
  revert n. induction l as [|y l IH]; intros n Hn; [done|].
  destruct n as [|n]; cbn in Hn.
  - injection Hn as ->. change (delete 0%nat (x :: l)) with l.
    rewrite filter_cons. destruct (decide (P x)); cbn [length]; lia.
  - change (delete (S n) (y :: l)) with (y :: delete n l).
    rewrite !filter_cons. specialize (IH n Hn).
    destruct (decide (P y)), (decide (P x)); cbn [length]; lia.
Qed.

Lemma count_cons {A} (P : A → Prop) `{∀ x, Decision (P x)} (l : list A) x :
  length (filter P (x :: l)) =
  ((if decide (P x) then 1 else 0) + length (filter P l))%nat.
Proof. rewrite filter_cons. by destruct (decide (P x)). Qed.

Ltac count_step :=
  unfold hard_reloads, removals, removals_awaited, normal_reloads, stops,
    errors, stops_awaited, on_action_clicked, on_command, on_menu_clicked,
    empty_cache_and_hard_reload, on_cache_cleared, on_stop_failed,
    wait, request, settle in *;
  repeat case_bool_decide;
  cbn [log waiting] in *;
  rewrite ?count_snoc;
  repeat case_decide;
  simplify_eq; try done; try lia.

Lemma removal_step i w w' :
  react extension_name i w = Some w' →
  (hard_reloads w' + removals_awaited w' + removals w ≤
   hard_reloads w + removals_awaited w + removals w' +
   (if decide (i = I_menu "hard_reload") then 1 else 0))%nat ∧
  (removals w ≤ removals w')%nat.
Proof.
  destruct i as [tab|command|menuItemId|n|n]; cbn [react].
  - intros [= <-]. destruct (is_loading tab) eqn:Hload;
      unfold on_action_clicked; rewrite Hload; count_step.
  - intros [= <-]. count_step.
  - intros [= <-]. count_step.
  - destruct (waiting w !! n) as [[]|] eqn:Hn; [| |done]; intros [= <-];
      pose proof (count_delete (λ p, p = removing) _ _ _ Hn); count_step.
  - destruct (waiting w !! n) as [[]|] eqn:Hn; [| |done]; intros [= <-];
      pose proof (count_delete (λ p, p = removing) _ _ _ Hn); count_step.
Qed.

Lemma removal_run inputs w w' :
  reacts extension_name inputs w = Some w' →
  (hard_reloads w' + removals_awaited w' + removals w ≤
   hard_reloads w + removals_awaited w + removals w' +
   hard_reload_clicks inputs)%nat ∧
  (removals w ≤ removals w')%nat.
Proof.
  revert w. induction inputs as [|i inputs IH]; intros w; cbn [reacts].
  - intros [= <-]. unfold hard_reload_clicks. cbn. lia.
  - destruct (react extension_name i w) as [w1|] eqn:Hstep; [|done].
    intros Hrun. destruct (removal_step i w w1 Hstep) as [H1 H1'].
    destruct (IH w1 Hrun) as [H2 H2'].
    unfold hard_reload_clicks in *. rewrite count_cons. lia.
Qed.

(** X12.  The cache is cleared before the page is reloaded.  Whatever the
    clicks, commands and menu choices, and however the promises settle, the
    reloads that bypass the cache, other than those of the hard-reload menu
    item, never outnumber the cache removals that were requested and are no
    longer awaited: such a reload follows a removal that has completed. *)
Theorem reload_follows_cache_removal inputs w :
  reacts extension_name inputs start = Some w →
  (hard_reloads w + removals_awaited w ≤
   hard_reload_clicks inputs + removals w)%nat.
Proof.
  intros Hrun. destruct (removal_run inputs start w Hrun) as [Hle _].
  change (hard_reloads start) with 0%nat in Hle.
  change (removals_awaited start) with 0%nat in Hle.
  change (removals start) with 0%nat in Hle. lia.
Qed.

Lemma click_step i w w' :
  react extension_name i w = Some w' →
  normal_reloads w' =
    (normal_reloads w + (if clicks_idle i then 1 else 0))%nat ∧
  stops w' = (stops w + (if clicks_loading i then 1 else 0))%nat ∧
  (errors w' + stops_awaited w' + stops w ≤
   errors w + stops_awaited w + stops w')%nat.
Proof.
  destruct i as [tab|command|menuItemId|n|n]; cbn [react clicks_idle
    clicks_loading].
  - intros [= <-]. destruct (is_loading tab) eqn:Hload;
      unfold on_action_clicked; rewrite Hload; cbn [negb]; count_step.
  - intros [= <-]. count_step.
  - intros [= <-]. count_step.
  - destruct (waiting w !! n) as [[]|] eqn:Hn; [| |done]; intros [= <-];
      pose proof (count_delete (λ p, p = executing) _ _ _ Hn); count_step.
  - destruct (waiting w !! n) as [[]|] eqn:Hn; [| |done]; intros [= <-];
      pose proof (count_delete (λ p, p = executing) _ _ _ Hn); count_step.
Qed.

Lemma click_run inputs w w' :
  reacts extension_name inputs w = Some w' →
  normal_reloads w' = (normal_reloads w + idle_clicks inputs)%nat ∧
  stops w' = (stops w + loading_clicks inputs)%nat ∧
  (errors w' + stops_awaited w' + stops w ≤
   errors w + stops_awaited w + stops w')%nat.
Proof.
  revert w. induction inputs as [|i inputs IH]; intros w; cbn [reacts].
  - intros [= <-]. unfold idle_clicks, loading_clicks. cbn. lia.
  - destruct (react extension_name i w) as [w1|] eqn:Hstep; [|done].
    intros Hrun. destruct (click_step i w w1 Hstep) as (H1 & H2 & H3).
    destruct (IH w1 Hrun) as (H1' & H2' & H3').
    unfold idle_clicks, loading_clicks in *. rewrite !count_cons.
    destruct (clicks_idle i), (clicks_loading i);
      repeat case_decide; try done; lia.
Qed.

(** X13.  A click does one thing.  Whatever the inputs, the script asks for
    a normal reload exactly once per click on a tab that is not loading and
    injects [window.stop()] exactly once per click on a tab that is loading;
    commands, menu choices and settled promises add neither.  An error is
    logged at most once per injected stop, and only for a stop that is no
    longer awaited. *)
Theorem click_reloads_or_stops inputs w :
  reacts extension_name inputs start = Some w →
  normal_reloads w = idle_clicks inputs ∧
  stops w = loading_clicks inputs ∧
  (errors w + stops_awaited w ≤ stops w)%nat.
Proof.
  intros Hrun. destruct (click_run inputs start w Hrun) as (H1 & H2 & H3).
  change (normal_reloads start) with 0%nat in H1.
  change (stops start) with 0%nat in H2, H3.
  change (errors start) with 0%nat in H3.
  change (stops_awaited start) with 0%nat in H3.
  repeat split; lia.
Qed.

End ActionCounts.

Section Menus.

Import Actions.

(** X14.  The menu and its listener fit together.  Every item is shown on
    both surfaces and the ids are distinct.  For the item bound to the
    command [_execute_page_action] the listener does nothing, so the click
    it stands for is not handled twice; for every other item the listener
    makes one request.  An id that is no item does nothing, and the command
    and the menu item named [empty_cache_and_hard_reload] do the same. *)
Theorem menu_items_and_listener w :
  Forall (λ item,
    item_contexts item = ["page_action"; "browser_action"] ∧
    match item_command item with
    | Some command =>
        command = "_execute_page_action" ∧
        on_menu_clicked (item_id item) w = w
    | None => ∃ r, log (on_menu_clicked (item_id item) w) = log w ++ [r]
    end) menu_items ∧
  NoDup (item_id <$> menu_items) ∧
  (∀ menuItemId, menuItemId ∉ item_id <$> menu_items →
     on_menu_clicked menuItemId w = w) ∧
  on_command "empty_cache_and_hard_reload" w =
    on_menu_clicked "empty_cache_and_hard_reload" w.
Proof.
  split; [|split; [|split]].
  - unfold menu_items. rewrite !Forall_cons, Forall_nil. cbn.
    repeat split; by eexists.
  - apply (bool_decide_unpack _). by vm_compute.
  - intros menuItemId Hnot. unfold on_menu_clicked.
    repeat case_bool_decide; try done; subst; destruct Hnot; cbn; set_solver.
  - done.
Qed.

End Menus.

(** ** More executions *)

Lemma surfaces_mirrored_witness :
  reachable sample_messages sample_state ∧ mirrored (calls sample_state).
Proof.
  split; [exact sample_state_reachable|].
  exact (surfaces_mirrored sample_messages sample_state
           sample_state_reachable).
Defined.

Lemma sample_icon_logged :
  SetIcon pageAction 3 "data/stop_to_reload_light.svg?t=0" ∈
  calls sample_state.
Proof. do 3 right. by left. Defined.

Lemma icons_are_assets_witness :
  reachable sample_messages sample_state ∧
  SetIcon pageAction 3 "data/stop_to_reload_light.svg?t=0" ∈
    calls sample_state ∧
  asset_path "data/stop_to_reload_light.svg?t=0".
Proof.
  split; [exact sample_state_reachable|].
  split; [exact sample_icon_logged|].
  exact (icons_are_assets sample_messages sample_state pageAction 3 _
           sample_state_reachable sample_icon_logged).
Defined.

Lemma navigating_state_reachable : reachable sample_messages navigating_state.
Proof. exists 0, [E_webNavigation (mkDetails 7 0 100)]. by vm_compute. Defined.

Lemma navigated_state_step :
  step sample_messages (E_resolve 3 (V_tab tab7)) navigating_state =
  Some navigated_state.
Proof. by vm_compute. Defined.

Lemma navigated_state_reachable : reachable sample_messages navigated_state.
Proof.
  exists 0, [E_webNavigation (mkDetails 7 0 100); E_resolve 3 (V_tab tab7)].
  by vm_compute.
Defined.

Lemma timestamp_changes_only_by_navigation_witness :
  reachable sample_messages navigating_state ∧
  step sample_messages (E_resolve 3 (V_tab tab7)) navigating_state =
    Some navigated_state ∧
  (is_Some (navigation_timestamp navigating_state !! 7) →
   is_Some (navigation_timestamp navigated_state !! 7)).
Proof.
  split; [exact navigating_state_reachable|].
  split; [exact navigated_state_step|].
  exact (proj2 (timestamp_changes_only_by_navigation sample_messages
                  (E_resolve 3 (V_tab tab7)) navigating_state
                  navigated_state 7 navigating_state_reachable
                  navigated_state_step)).
Defined.

Lemma subframe_navigation_invisible_witness :
  frameId (mkDetails 3 5 10) ≠ 0 ∧
  run sample_messages
    ([E_tabs_onCreated tab3] ++
     E_webNavigation (mkDetails 3 5 10) :: [E_tick 300]) (init 0) =
  run sample_messages ([E_tabs_onCreated tab3] ++ [E_tick 300]) (init 0).
Proof.
  assert (frameId (mkDetails 3 5 10) ≠ 0) as Hframe by done.
  split; [exact Hframe|].
  exact (subframe_navigation_invisible sample_messages _ _ _ (init 0) Hframe).
Defined.

Lemma flag_change_requests_refresh_witness :
  step sample_messages (E_management_onEnabled dark_theme) (init 0) =
    Some (on_enabled dark_theme (init 0)) ∧
  is_theme_dark (on_enabled dark_theme (init 0)) ≠ is_theme_dark (init 0) ∧
  last (pending (on_enabled dark_theme (init 0))) =
    Some (P_tabs_query_icons query_all).
Proof.
  assert (is_theme_dark (on_enabled dark_theme (init 0)) ≠
          is_theme_dark (init 0)) as Hchange by done.
  split; [reflexivity|]. split; [exact Hchange|].
  exact (proj1 (flag_change_requests_refresh sample_messages
                  (E_management_onEnabled dark_theme) (init 0) _
                  eq_refl Hchange)).
Defined.

Lemma titled_state_reachable : reachable sample_messages titled_state.
Proof. exists 0, [E_resolve 1 (V_platform "mac")]. by vm_compute. Defined.

Lemma idle_title_set_once_witness :
  reachable sample_messages titled_state ∧
  page_action_title_idle titled_state = Some "page_action_idle_title:⌘+R" ∧
  (P_getPlatformInfo ∉ pending titled_state).
Proof.
  assert (page_action_title_idle titled_state =
          Some "page_action_idle_title:⌘+R") as Htitle by reflexivity.
  split; [exact titled_state_reachable|]. split; [exact Htitle|].
  exact (proj1 (proj2 (idle_title_set_once sample_messages titled_state _
                         titled_state_reachable Htitle))).
Defined.

Lemma detect_theme_first_enabled_witness :
  Forall (λ ext, ¬ (ext_type ext = "theme" ∧ ext_enabled ext = true))
    [mkExt "addon@example.org" "extension" true] ∧
  ext_type dark_theme = "theme" ∧
  ext_enabled dark_theme = true ∧
  detect_theme ([mkExt "addon@example.org" "extension" true] ++
                dark_theme :: []) (init 0) =
    Normal (on_enabled dark_theme (init 0)).
Proof.
  assert (Forall (λ ext, ¬ (ext_type ext = "theme" ∧ ext_enabled ext = true))
            [mkExt "addon@example.org" "extension" true]) as Hbefore.
  { constructor; [|constructor]. intros [Htype _]. discriminate Htype. }
  split; [exact Hbefore|]. split; [reflexivity|]. split; [reflexivity|].
  exact (detect_theme_first_enabled _ dark_theme [] (init 0) Hbefore
           eq_refl eq_refl).
Defined.

Lemma icon_update_leaves_other_tabs_witness :
  reachable sample_messages sample_state ∧
  tab_id tab1 ≠ 3 ∧
  live_timers 3 (update_page_action_icon tab1 true sample_state) =
    live_timers 3 sample_state ∧
  animation_timeouts (update_page_action_icon tab1 true sample_state) !! 3 =
    animation_timeouts sample_state !! 3.
Proof.
  assert (tab_id tab1 ≠ 3) as Hne by done.
  split; [exact sample_state_reachable|]. split; [exact Hne|].
  exact (icon_update_leaves_other_tabs sample_messages sample_state tab1 true
           3 sample_state_reachable Hne).
Defined.

Lemma init_reachable : reachable sample_messages (init 0).
Proof. by exists 0, []. Defined.

Lemma settled_state_run :
  run sample_messages [E_tick 417; E_timeout (next_timeout_id (init 0))]
    (update_page_action_icon tab3 true (init 0)) = Some settled_state.
Proof. by vm_compute. Defined.

Lemma animation_runs_to_its_end_witness :
  reachable sample_messages (init 0) ∧
  run sample_messages [E_tick 417; E_timeout (next_timeout_id (init 0))]
    (update_page_action_icon tab3 true (init 0)) = Some settled_state ∧
  timers settled_state =
    filter (λ tm, tab_id (timer_tab tm) ≠ tab_id tab3) (timers (init 0)) ∧
  animation_timeouts settled_state =
    delete (tab_id tab3) (animation_timeouts (init 0)).
Proof.
  destruct (animation_runs_to_its_end sample_messages (init 0) tab3
              settled_state init_reachable settled_state_run)
    as (_ & Htimers & Hmap & _).
  split; [exact init_reachable|]. split; [exact settled_state_run|].
  split; [exact Htimers|exact Hmap].
Defined.

Lemma debounced_navigation_settles_witness :
  reachable sample_messages navigated_state ∧
  tab_id tab7 = tabId (mkDetails 7 0 200) ∧
  navigation_timestamp navigated_state !! tabId (mkDetails 7 0 200) =
    Some 100 ∧
  200 - 100 < 417 ∧
  live_timers 7
    (on_navigation_then sample_messages (mkDetails 7 0 200) tab7
       navigated_state) = [].
Proof.
  assert (navigation_timestamp navigated_state !! tabId (mkDetails 7 0 200) =
          Some 100) as Hlast by by vm_compute.
  assert (200 - 100 < 417) as Hdiff by lia.
  split; [exact navigated_state_reachable|]. split; [reflexivity|].
  split; [exact Hlast|]. split; [exact Hdiff|].
  exact (proj1 (proj2 (debounced_navigation_settles sample_messages
                         (mkDetails 7 0 200) tab7 100 navigated_state
                         navigated_state_reachable eq_refl Hlast Hdiff))).
Defined.

Lemma refresh_restarts_every_animation_witness :
  reachable sample_messages sample_state ∧
  tab3 ∈ [tab1; tab3; tab1] ∧
  ∃ tm,
    live_timers (tab_id tab3)
      (update_all_page_action_icons_then [tab1; tab3; tab1] sample_state) =
      [tm] ∧
    timer_due tm = clock sample_state + 417.
Proof.
  assert (tab3 ∈ [tab1; tab3; tab1]) as Hin by (right; by left).
  split; [exact sample_state_reachable|]. split; [exact Hin|].
  exact (refresh_restarts_every_animation sample_messages sample_state
           [tab1; tab3; tab1] tab3 sample_state_reachable Hin).
Defined.

Lemma sample_world_reacts :
  Actions.reacts "Reloader" sample_inputs Actions.start = Some sample_world.
Proof. by vm_compute. Defined.

Lemma reload_follows_cache_removal_witness :
  Actions.reacts "Reloader" sample_inputs Actions.start = Some sample_world ∧
  (Actions.hard_reloads sample_world + Actions.removals_awaited sample_world ≤
   Actions.hard_reload_clicks sample_inputs +
   Actions.removals sample_world)%nat.
Proof.
  split; [exact sample_world_reacts|].
  exact (reload_follows_cache_removal "Reloader" sample_inputs sample_world
           sample_world_reacts).
Defined.

Lemma click_reloads_or_stops_witness :
  Actions.reacts "Reloader" sample_inputs Actions.start = Some sample_world ∧
  Actions.normal_reloads sample_world = Actions.idle_clicks sample_inputs ∧
  Actions.stops sample_world = Actions.loading_clicks sample_inputs ∧
  (Actions.errors sample_world + Actions.stops_awaited sample_world ≤
   Actions.stops sample_world)%nat.
Proof.
  split; [exact sample_world_reacts|].
  exact (click_reloads_or_stops "Reloader" sample_inputs sample_world
           sample_world_reacts).
Defined.

(** ** Callbacks that arrive late *)

Section LateCallback.

Variable getMessage : string → string → string.

(** X15.  The callbacks of [tabs.get] may run in another order than the
    navigations they belong to.  A callback whose navigation is not newer
    than the one recorded for the tab does not animate: it sets the title
    and the still icon, and it moves the recorded timestamp back to its
    own. *)
Theorem late_callback_settles n details tab last st :
  pending st !! n = Some (P_tabs_get details) →
  navigation_timestamp st !! tabId details = Some last →
  timeStamp details ≤ last →
  ∃ st',
    step getMessage (E_resolve n (V_tab tab)) st = Some st' ∧
    calls st' =
      calls st ++
      title_calls tab
        (action_title (page_action_title_busy getMessage) st tab) ++
      icon_calls tab (icon_path (is_theme_dark st) tab false (clock st)) ∧
    navigation_timestamp st' !! tabId details = Some (timeStamp details) ∧
    pending st' = delete n (pending st).
Proof.
  intros Hn Hlast Hlate. eexists. split.
  { cbn [step]. rewrite Hn. cbn [resume]. reflexivity. }
  set (st0 := set_pending (delete n (pending st)) st).
  assert (should_animate details st0 = false) as Hno.
  { rewrite (should_animate_next details last) by done.
    apply bool_decide_eq_false_2. lia. }
  split; [|split].
  - by rewrite on_navigation_then_calls, Hno.
  - apply on_navigation_then_records.
  - unfold on_navigation_then. cbn [pending set_navigation_timestamp].
    by destruct (upai_frame tab (should_animate details st0)
                   (update_page_action getMessage tab st0))
      as (_ & _ & _ & _ & ->).
Qed.

End LateCallback.

Lemma late_callback_settles_witness :
  pending (await (P_tabs_get (mkDetails 7 0 100)) navigated_state) !! 3%nat =
    Some (P_tabs_get (mkDetails 7 0 100)) ∧
  navigation_timestamp
    (await (P_tabs_get (mkDetails 7 0 100)) navigated_state)
    !! tabId (mkDetails 7 0 100) = Some 100 ∧
  timeStamp (mkDetails 7 0 100) ≤ 100 ∧
  ∃ st',
    step sample_messages (E_resolve 3 (V_tab tab7))
      (await (P_tabs_get (mkDetails 7 0 100)) navigated_state) = Some st' ∧
    navigation_timestamp st' !! tabId (mkDetails 7 0 100) = Some 100.
Proof.
  assert (pending (await (P_tabs_get (mkDetails 7 0 100)) navigated_state)
            !! 3%nat = Some (P_tabs_get (mkDetails 7 0 100))) as Hn
    by reflexivity.
  assert (navigation_timestamp
            (await (P_tabs_get (mkDetails 7 0 100)) navigated_state)
            !! tabId (mkDetails 7 0 100) = Some 100) as Hlast
    by by vm_compute.
  assert (timeStamp (mkDetails 7 0 100) ≤ 100) as Hlate by (cbn; lia).
  split; [exact Hn|]. split; [exact Hlast|]. split; [exact Hlate|].
  destruct (late_callback_settles sample_messages 3 (mkDetails 7 0 100) tab7
              100 _ Hn Hlast Hlate) as (st' & Hstep & _ & Hrecorded & _).
  exists st'. split; [exact Hstep|exact Hrecorded].
Defined.
